(** * A shallow embedding of the lexi video server (src/server/index.js,
    src/server/lib/audio.js): the JSON retry loop [feedbackLoop], the Manim
    repair loop [generateUntilNoManimErrors], the video search of
    [runManim] / [findLatestMp4], the duration probe [getMediaDuration], the
    audio reconciliation [padOrTrimAudioToMatch] and [mergeVideoAndAudio],
    the temp file cleanup [cleanupTempAudioFiles], [verifyAudioFile], the
    merge variants (volume, fade, filter), the prompts of
    [generateScenePlan] and [generateManimCode], the first steps and the
    feedback parsing of the [/generateVideo] route, and
    [generateNepaliVoice].

    JavaScript strings are modelled as [string] (one [ascii] per code unit).
    The numbers the audio code computes with ([parseFloat], [+], [-], [<],
    [Math.max], [toFixed(2)]) are binary64 doubles: a finite double is kept
    as its exact rational value, every arithmetic result is rounded to the
    nearest double, and infinities and NaN are separate cases.  Numbers read
    by [JSON.parse] are kept as the exact rationals [Q] they denote, not
    rounded to doubles. *)

From Stdlib Require Import String Ascii List ZArith QArith Lia Lqa Bool.
Import ListNotations.
Set Warnings "-register-all".

Open Scope string_scope.
Open Scope nat_scope.

(* ------------------------------------------------------------------ *)
(** ** JavaScript string primitives *)

Module JS.

(** [String.prototype.trim] on the code units below 256: space, TAB, LF,
    VT, FF, CR and NO-BREAK SPACE. *)
Definition is_ws (c : ascii) : bool :=
  let n := nat_of_ascii c in
  (n =? 32) || (n =? 9) || (n =? 10) || (n =? 11) || (n =? 12) || (n =? 13) || (n =? 160).

Fixpoint trim_start (s : string) : string :=
  match s with
  | EmptyString => EmptyString
  | String c r => if is_ws c then trim_start r else s
  end.

Definition rev_str (s : string) : string :=
  string_of_list_ascii (rev (list_ascii_of_string s)).

Definition trim_end (s : string) : string :=
  rev_str (trim_start (rev_str s)).

Definition trim (s : string) : string := trim_end (trim_start s).

(** [s.slice(0, n)] *)
Definition slice0 (s : string) (n : nat) : string := substring 0 n s.

(** [s.startsWith(p)] *)
Definition starts_with (p s : string) : bool := String.prefix p s.

(** [s.includes(p)] *)
Fixpoint includes (s p : string) : bool :=
  String.prefix p s ||
  match s with
  | EmptyString => false
  | String _ r => includes r p
  end.

(** [s.endsWith(p)] *)
Definition ends_with (s p : string) : bool :=
  String.prefix (rev_str p) (rev_str s).

(** [s.toLowerCase()] on ASCII letters. *)
Definition lower_char (c : ascii) : ascii :=
  let n := nat_of_ascii c in
  if (65 <=? n) && (n <=? 90) then ascii_of_nat (n + 32) else c.

Fixpoint to_lower (s : string) : string :=
  match s with
  | EmptyString => EmptyString
  | String c r => String (lower_char c) (to_lower r)
  end.

(** Truthiness of a string ([!!s]): only the empty string is falsy. *)
Definition truthy (s : string) : bool :=
  match s with EmptyString => false | _ => true end.

End JS.

(* ------------------------------------------------------------------ *)
(** ** JSON values and [JSON.parse] *)

Module Json.

Inductive jsval : Type :=
| JNull
| JBool (b : bool)
| JNum (q : Q)
| JStr (s : string)
| JArr (l : list jsval)
| JObj (fields : list (string * jsval)).

(** Property read [v.k] on a parsed value; [None] is [undefined]. *)
Definition get (v : jsval) (k : string) : option jsval :=
  match v with
  | JObj fs =>
      match find (fun '(k', _) => String.eqb k k') fs with
      | Some (_, x) => Some x
      | None => None
      end
  | _ => None
  end.

(** [JSON.parse] keeps the first position and the last value of a
    duplicated key. *)
Fixpoint obj_set (fs : list (string * jsval)) (k : string) (v : jsval)
  : list (string * jsval) :=
  match fs with
  | [] => [(k, v)]
  | (k', v') :: r =>
      if String.eqb k k' then (k', v) :: r else (k', v') :: obj_set r k v
  end.

Definition is_json_ws (c : ascii) : bool :=
  let n := nat_of_ascii c in (n =? 32) || (n =? 9) || (n =? 10) || (n =? 13).

Fixpoint skip_ws (s : string) : string :=
  match s with
  | String c r => if is_json_ws c then skip_ws r else s
  | EmptyString => EmptyString
  end.

Definition strip_prefix (p s : string) : option string :=
  if String.prefix p s then Some (substring (String.length p) (String.length s) s) else None.

Definition is_digit (c : ascii) : bool :=
  let n := nat_of_ascii c in (48 <=? n) && (n <=? 57).

Fixpoint digits (s : string) : list nat * string :=
  match s with
  | String c r =>
      if is_digit c then
        let '(ds, r') := digits r in ((nat_of_ascii c - 48) :: ds, r')
      else ([], s)
  | EmptyString => ([], EmptyString)
  end.

Definition digits_value (ds : list nat) : Z :=
  fold_left (fun acc d => acc * 10 + Z.of_nat d)%Z ds 0%Z.

Definition scale10 (m : Z) (e : Z) : Q :=
  if (0 <=? e)%Z then inject_Z (m * 10 ^ e) else Qmake m (Z.to_pos (10 ^ (- e))).

(** JSON number grammar: [-]? (0 | [1-9][0-9]* ) (. [0-9]+)? ([eE] [+-]? [0-9]+)? *)
Definition parse_frac (s : string) : option (list nat * string) :=
  match strip_prefix "." s with
  | Some r => match digits r with
              | ([], _) => None
              | (f, r') => Some (f, r')
              end
  | None => Some ([], s)
  end.

Definition parse_exp (s : string) : option (Z * string) :=
  match s with
  | String c r =>
      if (nat_of_ascii c =? 101) || (nat_of_ascii c =? 69) then
        let '(sgn, r1) :=
          match strip_prefix "+" r with
          | Some r' => (1%Z, r')
          | None => match strip_prefix "-" r with
                    | Some r' => ((-1)%Z, r') | None => (1%Z, r) end
          end in
        match digits r1 with
        | ([], _) => None
        | (eds, r2) => Some ((sgn * digits_value eds)%Z, r2)
        end
      else Some (0%Z, s)
  | EmptyString => Some (0%Z, s)
  end.

Definition parse_number (s : string) : option (Q * string) :=
  let '(neg, s1) := match strip_prefix "-" s with
                    | Some r => (true, r) | None => (false, s) end in
  match digits s1 with
  | ([], _) => None
  | (0 :: _ :: _, _) => None
  | (ids, s2) =>
    match parse_frac s2 with
    | None => None
    | Some (fds, s3) =>
      match parse_exp s3 with
      | None => None
      | Some (ev, s4) =>
          let m := digits_value (ids ++ fds) in
          let m := if neg then (- m)%Z else m in
          Some (scale10 m (ev - Z.of_nat (List.length fds))%Z, s4)
      end
    end
  end.

(** The one-character string holding a double quote. *)
Definition dquote : string := String (ascii_of_nat 34) EmptyString.

Definition hex_val (c : ascii) : option nat :=
  let n := nat_of_ascii c in
  if (48 <=? n) && (n <=? 57) then Some (n - 48)
  else if (97 <=? n) && (n <=? 102) then Some (n - 87)
  else if (65 <=? n) && (n <=? 70) then Some (n - 55)
  else None.

(** Scanner state inside a string literal: plain text, just after a
    backslash, or inside a [\u] escape with [k] hex digits still to read. *)
Inductive str_state := Plain | AfterBackslash | Unicode (k : nat) (acc : nat).

Definition cons_body (ch : ascii) (o : option (string * string))
  : option (string * string) :=
  match o with Some (b, r) => Some (String ch b, r) | None => None end.

(** Body of a JSON string literal, after the opening quote.  Strings are
    ASCII here, so a [\u] escape above 0x7F has no representation and is
    refused. *)
Fixpoint str_body (st : str_state) (s : string) : option (string * string) :=
  match s with
  | EmptyString => None
  | String c r =>
    let n := nat_of_ascii c in
    match st with
    | Plain =>
        if n =? 34 then Some (EmptyString, r)
        else if n <? 32 then None
        else if n =? 92 then str_body AfterBackslash r
        else cons_body c (str_body Plain r)
    | AfterBackslash =>
        match n with
        | 34 => cons_body (ascii_of_nat 34) (str_body Plain r)
        | 92 => cons_body (ascii_of_nat 92) (str_body Plain r)
        | 47 => cons_body (ascii_of_nat 47) (str_body Plain r)
        | 98 => cons_body (ascii_of_nat 8) (str_body Plain r)
        | 102 => cons_body (ascii_of_nat 12) (str_body Plain r)
        | 110 => cons_body (ascii_of_nat 10) (str_body Plain r)
        | 114 => cons_body (ascii_of_nat 13) (str_body Plain r)
        | 116 => cons_body (ascii_of_nat 9) (str_body Plain r)
        | 117 => str_body (Unicode 4 0) r
        | _ => None
        end
    | Unicode k acc =>
        match hex_val c with
        | None => None
        | Some h =>
            let acc' := acc * 16 + h in
            match k with
            (* a code unit above 255 has no [ascii] to stand for it *)
            | 0 | 1 => if acc' <? 256 then cons_body (ascii_of_nat acc') (str_body Plain r)
                       else None
            | S k' => str_body (Unicode k' acc') r
            end
        end
    end
  end.

Definition parse_str_body (s : string) : option (string * string) :=
  str_body Plain s.

Fixpoint parse_value (fuel : nat) (s : string) : option (jsval * string) :=
  match fuel with
  | O => None
  | S f =>
    let s := skip_ws s in
    match strip_prefix "null" s with
    | Some r => Some (JNull, r)
    | None =>
    match strip_prefix "true" s with
    | Some r => Some (JBool true, r)
    | None =>
    match strip_prefix "false" s with
    | Some r => Some (JBool false, r)
    | None =>
    match strip_prefix dquote s with
    | Some r => match parse_str_body r with
                | Some (b, r') => Some (JStr b, r')
                | None => None
                end
    | None =>
    match strip_prefix "[" s with
    | Some r => match strip_prefix "]" (skip_ws r) with
                | Some r' => Some (JArr [], r')
                | None => parse_elems f r []
                end
    | None =>
    match strip_prefix "{" s with
    | Some r => match strip_prefix "}" (skip_ws r) with
                | Some r' => Some (JObj [], r')
                | None => parse_members f r []
                end
    | None =>
        match parse_number s with
        | Some (q, r) => Some (JNum q, r)
        | None => None
        end
    end end end end end end
  end
with parse_elems (fuel : nat) (s : string) (acc : list jsval)
  : option (jsval * string) :=
  match fuel with
  | O => None
  | S f =>
    match parse_value f s with
    | None => None
    | Some (v, r) =>
        let r := skip_ws r in
        match strip_prefix "," r with
        | Some r' => parse_elems f r' (v :: acc)
        | None => match strip_prefix "]" r with
                  | Some r' => Some (JArr (rev (v :: acc)), r')
                  | None => None
                  end
        end
    end
  end
with parse_members (fuel : nat) (s : string) (acc : list (string * jsval))
  : option (jsval * string) :=
  match fuel with
  | O => None
  | S f =>
    match strip_prefix dquote (skip_ws s) with
    | None => None
    | Some r =>
      match parse_str_body r with
      | None => None
      | Some (k, r1) =>
        match strip_prefix ":" (skip_ws r1) with
        | None => None
        | Some r2 =>
          match parse_value f r2 with
          | None => None
          | Some (v, r3) =>
              let r3 := skip_ws r3 in
              match strip_prefix "," r3 with
              | Some r4 => parse_members f r4 (obj_set acc k v)
              | None => match strip_prefix "}" r3 with
                        | Some r4 => Some (JObj (obj_set acc k v), r4)
                        | None => None
                        end
              end
          end
        end
      end
    end
  end.

(** [JSON.parse(s)]: [None] is a thrown [SyntaxError]. *)
Definition parse (s : string) : option jsval :=
  match parse_value (2 * String.length s + 2) s with
  | Some (v, r) => match skip_ws r with EmptyString => Some v | _ => None end
  | None => None
  end.

End Json.

(* ------------------------------------------------------------------ *)
(** ** [feedbackLoop] (src/server/index.js) *)

Module Feedback.
Import Json.

(** [lastRawContent.replace(/^```(?:json)?\n?/, "").replace(/```$/, "")] *)
Definition fence : string := "```".

Definition strip_leading_fence (s : string) : string :=
  match strip_prefix fence s with
  | None => s
  | Some r =>
      let r := match strip_prefix "json" r with Some r' => r' | None => r end in
      match strip_prefix (String (ascii_of_nat 10) EmptyString) r with
      | Some r' => r'
      | None => r
      end
  end.

Definition strip_trailing_fence (s : string) : string :=
  if JS.ends_with s fence then substring 0 (String.length s - 3) s else s.

Definition strip_fences (s : string) : string :=
  strip_trailing_fence (strip_leading_fence s).

Definition nl : string := String (ascii_of_nat 10) EmptyString.

(** The corrective message built in the [catch] branch. *)
Definition reprompt_text (last : string) : string :=
  "Previous output could not be parsed as valid JSON:" ++ nl ++ last ++ nl ++ nl ++
  "Please return a strict JSON object only, matching the expected schema. No explanation.".

(** What the generator is called with: the caller's input, or the
    [{ role: "user", content }] object of a corrective re-prompt. *)
Inductive finput (I : Type) : Type :=
| Orig (x : I)
| Reprompt (content : string).
Arguments Orig {I} x.
Arguments Reprompt {I} content.

(** One awaited call of [generateFn]: it rejects, or it resolves to a
    response whose [choices?.[0]?.message?.content] is [Some text] or
    missing ([None]). *)
Inductive gen_result :=
| Throws
| Responds (content : option string).

Section Loop.
Variable I : Type.
(** The generator, indexed by the 1-based attempt number: each call of the
    language model may answer differently. *)
Variable generateFn : nat -> finput I -> gen_result.

(** One generator call as it happened: attempt number, input, answer. *)
Definition call := (nat * finput I * gen_result)%type.

(** [content || ""] *)
Definition content_of (c : option string) : string :=
  match c with Some t => t | None => EmptyString end.

(** [fb_go fuel attempt input last] runs the remaining [fuel] iterations of
    the [for] loop; it returns the generator calls made, in order, and the
    value the loop resolves to (the loop never rejects: every failure is
    caught). *)
Fixpoint fb_go (fuel attempt : nat) (input : finput I) (lastRawContent : string)
  : list call * jsval :=
  match fuel with
  | O => ([], JObj [("raw", JStr lastRawContent)])
  | S fuel' =>
      let resp := generateFn attempt input in
      let retry last :=
        let '(calls, v) := fb_go fuel' (S attempt) (Reprompt (reprompt_text last)) last in
        ((attempt, input, resp) :: calls, v) in
      match resp with
      | Throws => retry lastRawContent
      | Responds c =>
          let last := JS.trim (content_of c) in
          match parse (strip_fences last) with
          | Some v => ([(attempt, input, resp)], v)
          | None => retry last
          end
      end
  end.

Definition feedbackLoop (input : I) (maxRetries : nat) : list call * jsval :=
  fb_go maxRetries 1 (Orig input) EmptyString.

(** Whether an answer leaves the loop going: a rejection, or a text that
    [JSON.parse] refuses after trimming and fence stripping. *)
Definition fails (r : gen_result) : bool :=
  match r with
  | Throws => true
  | Responds c =>
      match parse (strip_fences (JS.trim (content_of c))) with
      | None => true
      | Some _ => false
      end
  end.

(** The value [lastRawContent] holds after the given calls. *)
Definition raw_after (init : string) (calls : list call) : string :=
  fold_left (fun acc '(_, _, r) =>
               match r with
               | Throws => acc
               | Responds c => JS.trim (content_of c)
               end) calls init.

End Loop.
Arguments fb_go {I} generateFn fuel attempt input lastRawContent.
Arguments feedbackLoop {I} generateFn input maxRetries.
Arguments raw_after {I} init calls.

End Feedback.

(* ------------------------------------------------------------------ *)
(** ** [generateUntilNoManimErrors] (src/server/index.js) *)

Module Repair.
Import Json.

(** The scene plan object: the fields the loop reads or writes, and the
    others ([objects], [actions], [captions], ...) carried along by the
    spread [{ ...scenePlan, ... }]. *)
Record ScenePlan := mkPlan {
  scene_name : string;
  previous_code : option string;
  manim_error : option string;
  manim_video_missing : option bool;
  other_fields : list (string * jsval)
}.

(** The object [runManim] resolves to. *)
Record RenderResult := mkRender {
  output : string;
  errors : string;
  videoPath : option string;
  success : bool
}.

(** The object the loop resolves to; [None] stands for [null] or an absent
    key. *)
Record LoopResult := mkResult {
  res_manimCode : option jsval;
  res_output : string;
  res_errors : string;
  res_filePath : option string;
  res_videoPath : option string;
  res_attempts : nat
}.

Inductive outcome :=
| Returned (r : LoopResult)
(** [writeFile] / [.substring] on a [manim_code] that is truthy but not a
    string: the promise rejects. *)
| Rejected.

(** Observable effects, in order. *)
Inductive event :=
| EGen (attempt : nat) (plan : ScenePlan)    (* feedbackLoop(generateManimCode, scenePlan) *)
| EWrite (path code : string)                (* writeFile(filePath, manim_code) *)
| ERender (path scene : string)              (* runManim(filePath, scene_name) *)
| ESleep (ms : nat).

(** JavaScript truthiness of a parsed value. *)
Definition truthy (v : jsval) : bool :=
  match v with
  | JNull => false
  | JBool b => b
  | JNum q => negb (Qeq_bool q 0)
  | JStr s => JS.truthy s
  | JArr _ | JObj _ => true
  end.

Definition truthy_opt (o : option jsval) : bool :=
  match o with Some v => truthy v | None => false end.

(** [!manimResult.errors || manimResult.errors.trim() === ""] *)
Definition no_errors (r : RenderResult) : bool :=
  String.eqb (JS.trim (errors r)) EmptyString.

(** [!!manimResult.videoPath] *)
Definition has_video (r : RenderResult) : bool :=
  match videoPath r with Some p => JS.truthy p | None => false end.

Definition attempt_ok (r : RenderResult) : bool := no_errors r && has_video r.

(** The correction payload [{ ...scenePlan, previous_code, manim_error,
    manim_video_missing }]. *)
Definition correction (plan : ScenePlan) (code : string) (r : RenderResult) : ScenePlan :=
  {| scene_name := scene_name plan;
     previous_code := Some code;
     manim_error := Some (JS.slice0 (errors r) 2000);
     manim_video_missing := Some (negb (has_video r));
     other_fields := other_fields plan |}.

Definition initial_render : RenderResult :=
  {| output := ""; errors := ""; videoPath := None; success := false |}.

Section Loop.
Variable scriptsPath : string.
(** [feedbackLoop(generateManimCode, scenePlan)] at a given attempt. *)
Variable codegen : nat -> ScenePlan -> jsval.
(** [runManim(filePath, sceneName)] at a given attempt. *)
Variable render : nat -> string -> string -> RenderResult.

(** [join(scriptsPath, `${scenePlan.scene_name}.py`)] *)
Definition file_path (plan : ScenePlan) : string :=
  scriptsPath ++ "/" ++ scene_name plan ++ ".py".

(** [fuel] is the number of iterations of [while (attempt < maxAttempts)]
    still to run; [attempt] the counter before the increment. *)
Fixpoint rl_go (maxAttempts fuel attempt : nat) (plan : ScenePlan)
    (manimCodeJSON : option jsval) (manimResult : RenderResult)
  : list event * outcome :=
  match fuel with
  | O =>
      ([], Returned {| res_manimCode := manimCodeJSON;
                       res_output := output manimResult;
                       res_errors := errors manimResult;
                       res_filePath := None;
                       res_videoPath := match videoPath manimResult with
                                        | Some p => if JS.truthy p then Some p else None
                                        | None => None end;
                       res_attempts := maxAttempts |})
  | S fuel' =>
      let attempt := S attempt in
      let code := codegen attempt plan in
      let gen := EGen attempt plan in
      if negb (truthy_opt (get code "manim_code")) then
        ([gen], Returned {| res_manimCode := Some code;
                            res_output := "";
                            res_errors := "No manim_code";
                            res_filePath := None;
                            res_videoPath := None;
                            res_attempts := attempt |})
      else
        match get code "manim_code" with
        | Some (JStr src) =>
            let fp := file_path plan in
            let r := render attempt fp (scene_name plan) in
            let evs := [gen; EWrite fp src; ERender fp (scene_name plan)] in
            if attempt_ok r then
              (evs, Returned {| res_manimCode := Some code;
                                res_output := output r;
                                res_errors := errors r;
                                res_filePath := Some fp;
                                res_videoPath := videoPath r;
                                res_attempts := attempt |})
            else
              let '(evs', o) :=
                rl_go maxAttempts fuel' attempt (correction plan src r) (Some code) r in
              (List.app evs (ESleep 1000 :: evs'), o)
        | _ => ([gen], Rejected)
        end
  end.

(** Two render results that agree on everything but [success]. *)
Definition same_render (r r' : RenderResult) : Prop :=
  output r = output r' /\ errors r = errors r' /\ videoPath r = videoPath r'.

(** The number of generation passes in a run's effects. *)
Definition count_gen (evs : list event) : nat :=
  List.length (filter (fun e => match e with EGen _ _ => true | _ => false end) evs).

Definition generateUntilNoManimErrors (scenePlan : ScenePlan) (maxAttempts : nat)
  : list event * outcome :=
  rl_go maxAttempts maxAttempts 0 scenePlan None initial_render.

End Loop.

End Repair.

(* ------------------------------------------------------------------ *)
(** ** Video search of [runManim] and [findLatestMp4] (src/server/index.js) *)

Module Search.

(** A static file tree; [mtime] is [stats.mtimeMs] in whole milliseconds.
    Paths are lists of components, [join] is list append, and a path string
    is read by splitting it on "/" (POSIX separators). *)
Inductive entry :=
| EFile (name : string) (mtime : Z)
| EDir (name : string) (kids : list entry).

Definition ent_name (e : entry) : string :=
  match e with EFile n _ | EDir n _ => n end.

Definition path := list string.

(** The root directory's entries. *)
Definition fsys := list entry.

Fixpoint lookup_in (es : list entry) (p : path) {struct p} : option entry :=
  match p with
  | [] => None
  | c :: rest =>
      match find (fun e => String.eqb (ent_name e) c) es with
      | None => None
      | Some e =>
          match rest, e with
          | [], _ => Some e
          | _, EDir _ kids => lookup_in kids rest
          | _, EFile _ _ => None
          end
      end
  end.

(** [fs.existsSync(p)] *)
Definition exists_path (fs : fsys) (p : path) : bool :=
  match p with
  | [] => true
  | _ => match lookup_in fs p with Some _ => true | None => false end
  end.

(** [readdir(dir)]; [None] is a rejection (missing or not a directory). *)
Definition readdir (fs : fsys) (p : path) : option (list entry) :=
  match p with
  | [] => Some fs
  | _ => match lookup_in fs p with Some (EDir _ kids) => Some kids | _ => None end
  end.

Definition is_directory (fs : fsys) (p : path) : bool :=
  match readdir fs p with Some _ => true | None => false end.

(** [(await stat(f)).mtimeMs] for a file. *)
Definition mtime_of (fs : fsys) (p : path) : option Z :=
  match lookup_in fs p with Some (EFile _ m) => Some m | _ => None end.

Fixpoint split_on (sep : ascii) (s : string) : list string :=
  match s with
  | EmptyString => [EmptyString]
  | String c r =>
      if Ascii.eqb c sep then EmptyString :: split_on sep r
      else match split_on sep r with
           | w :: ws => String c w :: ws
           | [] => [String c EmptyString]
           end
  end.

Definition slash : ascii := ascii_of_nat 47.
Definition newline : ascii := ascii_of_nat 10.

(** A path string as components; a relative one is resolved from [cwd]. *)
Definition to_path (cwd : path) (s : string) : path :=
  let comps := filter JS.truthy (split_on slash s) in
  if JS.starts_with "/" s then comps else List.app cwd comps.

(** The string [join] produces for a path. *)
Fixpoint path_string (p : path) : string :=
  match p with
  | [] => EmptyString
  | c :: r => "/" ++ c ++ path_string r
  end.

(** *** Tier 1: [line.match(...)] with the regular expression of
    [runManim]: a single or double quote, a non-empty run of characters that
    are not quotes ending in .mp4, and a closing quote. *)

Definition is_quote (c : ascii) : bool :=
  let n := nat_of_ascii c in (n =? 39) || (n =? 34).

(** The run of non-quote characters at the head of [s], and whether a quote
    follows it. *)
Fixpoint quote_run (s : string) : string * bool :=
  match s with
  | EmptyString => (EmptyString, false)
  | String c r =>
      if is_quote c then (EmptyString, true)
      else let '(w, q) := quote_run r in (String c w, q)
  end.

(** Leftmost match: an opening quote, then a non-empty run of non-quotes
    ending in ".mp4", then a quote.  Capture group 1. *)
Fixpoint mp4_match (s : string) : option string :=
  match s with
  | EmptyString => None
  | String c r =>
      let rest := mp4_match r in
      if is_quote c then
        let '(w, q) := quote_run r in
        if q && (5 <=? String.length w) && JS.ends_with w ".mp4" then Some w
        else rest
      else rest
  end.

Definition ready_line (line : string) : bool :=
  JS.includes line ".mp4" &&
  (JS.includes line "File ready" || JS.includes line "ready at").

(** The [for (const line of outputLines)] loop: a later matching line
    overwrites [detectedVideoPath]. *)
Definition line_hit (line : string) : option string :=
  if ready_line line then mp4_match line else None.

Definition detect_step (acc : option string) (line : string) : option string :=
  match line_hit line with Some m => Some m | None => acc end.

Definition detected_video_path (output : string) : option string :=
  fold_left detect_step (split_on newline output) None.

(** *** Tier 2: [findLatestMp4] *)

Fixpoint gather_entry (dir : path) (e : entry) : list path :=
  match e with
  | EFile n _ =>
      if JS.ends_with (JS.to_lower n) ".mp4" then [List.app dir [n]] else []
  | EDir n kids =>
      (fix go (l : list entry) : list path :=
         match l with
         | [] => []
         | k :: ks => List.app (gather_entry (List.app dir [n]) k) (go ks)
         end) kids
  end.

(** [gatherMp4(dir, [])] *)
Definition gatherMp4 (fs : fsys) (dir : path) : list path :=
  match readdir fs dir with
  | Some kids => flat_map (gather_entry dir) kids
  | None => []
  end.

Definition possibleQualityFolders : list string :=
  ["480p15"; "720p30"; "1080p60"; "2160p60"].

Definition scene_candidates (fs : fsys) (mediaRoot : path) (sceneName : string)
  : list path :=
  let quality :=
    flat_map (fun q => let qp := List.app mediaRoot [sceneName; q] in
                       if exists_path fs qp then gatherMp4 fs qp else [])
             possibleQualityFolders in
  let sceneFolder := List.app mediaRoot [sceneName] in
  List.app quality
    (if exists_path fs sceneFolder then gatherMp4 fs sceneFolder else []).

(** The [newest] / [newestMtime] scan, starting from [null] / [0]. *)
Definition newest_step (fs : fsys) (acc : option path * Z) (f : path)
  : option path * Z :=
  match mtime_of fs f with
  | Some m => if (snd acc <? m)%Z then (Some f, m) else acc
  | None => acc
  end.

Definition newest (fs : fsys) (cands : list path) : option path :=
  fst (fold_left (newest_step fs) cands (None, 0%Z)).

(** [candidates]: the scene's folders, or else the whole media root. *)
Definition tier2_candidates (fs : fsys) (mediaRoot : path) (sceneName : string)
  : list path :=
  match scene_candidates fs mediaRoot sceneName with
  | [] => gatherMp4 fs mediaRoot
  | cs => cs
  end.

Definition findLatestMp4 (fs : fsys) (mediaRoot : path) (sceneName : string)
  : option path :=
  if negb (is_directory fs mediaRoot) then None else
  let candidates := tier2_candidates fs mediaRoot sceneName in
  match candidates with
  | [] => None
  | _ => newest fs candidates
  end.

(** *** Tier 3: [searchDir(scriptsPath)], then the sort by [mtime] *)

Fixpoint search_entry (dir : path) (e : entry) : list (path * Z) :=
  match e with
  | EFile n m => if JS.ends_with n ".mp4" then [(List.app dir [n], m)] else []
  | EDir n kids =>
      if JS.includes n "node_modules" || JS.includes n "myvenv" then []
      else
        (fix go (l : list entry) : list (path * Z) :=
           match l with
           | [] => []
           | k :: ks => List.app (search_entry (List.app dir [n]) k) (go ks)
           end) kids
  end.

Definition searchDir (fs : fsys) (dir : path) : list (path * Z) :=
  match readdir fs dir with
  | Some kids => flat_map (search_entry dir) kids
  | None => []
  end.

(** [allMp4s.sort((a, b) => b.mtime - a.mtime)]: a stable sort, newest
    first (insertion sort; [x] goes before the first element that is not
    newer than it). *)
Fixpoint insert_desc (x : path * Z) (l : list (path * Z)) : list (path * Z) :=
  match l with
  | [] => [x]
  | y :: ys => if (snd x <? snd y)%Z then y :: insert_desc x ys else x :: y :: ys
  end.

Fixpoint sort_desc (l : list (path * Z)) : list (path * Z) :=
  match l with
  | [] => []
  | x :: xs => insert_desc x (sort_desc xs)
  end.

Definition tier3 (fs : fsys) (scriptsPath : path) : option path :=
  match sort_desc (searchDir fs scriptsPath) with
  | [] => None
  | (p, _) :: _ => Some p
  end.

(** *** The choice of [videoPath] in [runManim]'s [close] handler *)
Definition tier1 (fs : fsys) (cwd : path) (output : string) : option string :=
  match detected_video_path output with
  | Some d => if exists_path fs (to_path cwd d) then Some d else None
  | None => None
  end.

Definition media_root (scriptsPath : path) : path := List.app scriptsPath ["media"; "videos"].

Definition select_video (fs : fsys) (cwd scriptsPath : path) (sceneName output : string)
  : option string :=
  let mediaRoot := media_root scriptsPath in
  let tier1 := tier1 fs cwd output in
  match tier1 with
  | Some v => Some v
  | None =>
      match findLatestMp4 fs mediaRoot sceneName with
      | Some p => Some (path_string p)
      | None => option_map path_string (tier3 fs scriptsPath)
      end
  end.

(** A sample tree and [manim] output. *)
Definition demo_fs : fsys :=
  [EDir "old" [EFile "a.mp4" 100];
   EDir "scripts" [EDir "media" [EDir "videos" [EDir "S" [EDir "480p15" [EFile "S.mp4" 50]]]]]].

Definition demo_output : string :=
  "File ready at '/old/a.mp4'" ++ String newline EmptyString ++
  "File ready at '/tmp/gone.mp4'".

End Search.

(* ------------------------------------------------------------------ *)
(** ** Durations, [padOrTrimAudioToMatch] and [mergeVideoAndAudio]
    (src/server/lib/audio.js, src/server/index.js) *)

Module Audio.

(** A JavaScript number: a finite double, kept as its exact value, an
    infinity, or NaN.  Zero and negative zero are both [NFin 0]: this code
    only compares, adds, subtracts and prints numbers, where they agree
    ([Math.max(0, -0)] is [+0]; [(-0).toFixed(2)] is "0.00"). *)
Inductive jsnum := NFin (q : Q) | NInf (negative : bool) | NNaN.

(** [a / d >= 2 ^ k] for positive [a] and [d]. *)
Definition ge_pow2 (a d k : Z) : bool :=
  if (0 <=? k)%Z then (d * 2 ^ k <=? a)%Z else (d <=? a * 2 ^ (- k))%Z.

(** The number value of an exact real: the nearest binary64 double, ties
    to the even significand, with the subnormal range and the overflow to
    an infinity (IEEE 754 round to nearest, as ECMAScript's "the Number
    value for x"). *)
Definition round_double (q : Q) : jsnum :=
  let n := Qnum q in
  let d := Zpos (Qden q) in
  if (n =? 0)%Z then NFin 0 else
  let a := Z.abs n in
  let k0 := (Z.log2 a - Z.log2 d)%Z in
  (* [k = floor(log2(a / d))]: [2 ^ k <= a / d < 2 ^ (k + 1)] *)
  let k := if ge_pow2 a d k0 then k0 else (k0 - 1)%Z in
  (* exponent of the last significand bit: 53 bits, or the subnormal grid *)
  let e := Z.max (k - 52) (-1074) in
  let num := if (0 <=? e)%Z then a else (a * 2 ^ (- e))%Z in
  let den := if (0 <=? e)%Z then (d * 2 ^ e)%Z else d in
  let m0 := (num / den)%Z in
  let r := (num mod den)%Z in
  let m := if (den <? 2 * r)%Z || ((2 * r =? den)%Z && Z.odd m0) then (m0 + 1)%Z else m0 in
  let mag := if (0 <=? e)%Z then inject_Z (m * 2 ^ e) else Qmake m (Z.to_pos (2 ^ (- e))) in
  if (0 <=? e)%Z && (2 ^ 1024 <=? m * 2 ^ e)%Z then NInf (n <? 0)%Z
  else NFin (Qred (if (n <? 0)%Z then - mag else mag)).

(** [parseFloat(s)]: the longest prefix of [s] (after leading white space)
    that is a StrDecimalLiteral, rounded to a double; NaN when there is
    none. *)
Definition parseFloat (s : string) : jsnum :=
  let s := JS.trim_start s in
  let '(neg, s1) :=
    match Json.strip_prefix "-" s with
    | Some r => (true, r)
    | None => match Json.strip_prefix "+" s with
              | Some r => (false, r) | None => (false, s) end
    end in
  match Json.strip_prefix "Infinity" s1 with
  | Some _ => NInf neg
  | None =>
    let '(ids, s2) := Json.digits s1 in
    let '(fds, s3) :=
      match Json.strip_prefix "." s2 with
      | Some r => Json.digits r
      | None => ([], s2)
      end in
    match ids, fds with
    | [], [] => NNaN
    | _, _ =>
        let ev :=
          match s3 with
          | String c r =>
              if (nat_of_ascii c =? 101) || (nat_of_ascii c =? 69) then
                let '(sgn, r1) :=
                  match Json.strip_prefix "+" r with
                  | Some r' => (1%Z, r')
                  | None => match Json.strip_prefix "-" r with
                            | Some r' => ((-1)%Z, r') | None => (1%Z, r) end
                  end in
                match Json.digits r1 with
                | ([], _) => 0%Z
                | (eds, _) => (sgn * Json.digits_value eds)%Z
                end
              else 0%Z
          | EmptyString => 0%Z
          end in
        let m := Json.digits_value (List.app ids fds) in
        round_double (Json.scale10 (if neg then (- m)%Z else m) (ev - Z.of_nat (List.length fds)))
    end
  end.

Definition is_nan (x : jsnum) : bool := match x with NNaN => true | _ => false end.

(** [x + y]: the exact sum of two doubles, rounded. *)
Definition num_add (x y : jsnum) : jsnum :=
  match x, y with
  | NFin a, NFin b => round_double (a + b)
  | NInf s, NFin _ | NFin _, NInf s => NInf s
  | NInf s, NInf t => if Bool.eqb s t then NInf s else NNaN
  | _, _ => NNaN
  end.

Definition num_neg (x : jsnum) : jsnum :=
  match x with NFin a => NFin (- a) | NInf s => NInf (negb s) | NNaN => NNaN end.

Definition num_sub (x y : jsnum) : jsnum := num_add x (num_neg y).

(** [x < y] (comparing doubles is exact) *)
Definition num_lt (x y : jsnum) : bool :=
  match x, y with
  | NFin a, NFin b => negb (Qle_bool b a)
  | NInf true, NInf true | NInf false, NInf false => false
  | NInf true, (NFin _ | NInf false) => true
  | NFin _, NInf false => true
  | _, _ => false
  end.

(** [Math.max(x, y)] *)
Definition num_max (x y : jsnum) : jsnum :=
  if is_nan x || is_nan y then NNaN else if num_lt x y then y else x.

(** [x || d] on a number: 0 and NaN are falsy. *)
Definition num_or (x d : jsnum) : jsnum :=
  match x with
  | NNaN => d
  | NFin a => if Qeq_bool a 0 then d else x
  | NInf _ => x
  end.

(** Decimal digits of a natural number (of at most [fuel] digits). *)
Fixpoint decimal_aux (fuel : nat) (n : Z) (acc : string) : string :=
  match fuel with
  | O => acc
  | S f =>
      let acc := String (ascii_of_nat (48 + Z.to_nat (n mod 10))) acc in
      if (n <? 10)%Z then acc else decimal_aux f (n / 10)%Z acc
  end.

Definition decimal (n : Z) : string :=
  decimal_aux (S (Z.to_nat (Z.log2 n))) n EmptyString.

(** [Number::toString] on a double [x >= 10 ^ 21] (an integer): the
    fewest significant digits [s] (at most 17) whose value
    [s * 10 ^ (n - k)] rounds back to [x], the closest such [s] (ties to
    even), printed in exponential form since [n > 21]. *)
Definition big_to_string (x : Q) : string :=
  let xi := (Qnum x / Zpos (Qden x))%Z in
  let dd := String.length (decimal xi) in
  let try_k (k : nat) : option (Z * nat) :=
    let p := (10 ^ Z.of_nat (dd - k))%Z in
    let s0 := (xi / p)%Z in
    let r := (xi mod p)%Z in
    let s := if (p <? 2 * r)%Z || ((2 * r =? p)%Z && Z.odd s0) then (s0 + 1)%Z else s0 in
    let '(s, n) := if (s =? 10 ^ Z.of_nat k)%Z then ((s / 10)%Z, S dd) else (s, dd) in
    if match round_double (inject_Z (s * p)), round_double x with
       | NFin u, NFin w => Qeq_bool u w
       | _, _ => false
       end
    then Some (s, n) else None in
  let fix search (ks : list nat) : Z * nat :=
    match ks with
    | [] => (xi, dd)
    | k :: r => match try_k k with Some sn => sn | None => search r end
    end in
  let '(s, n) := search (seq 1 17) in
  let ds := decimal s in
  match ds with
  | String c EmptyString => String c EmptyString
  | String c rest => String c ("." ++ rest)
  | EmptyString => EmptyString
  end ++ "e+" ++ decimal (Z.of_nat (n - 1)).

(** [x.toFixed(2)]: for [|x| < 10 ^ 21] the integer [n] nearest to
    [100 |x|] (the larger one on a tie), printed with two decimals, after a
    "-" when [x < 0]; [ToString(|x|)] above. *)
Definition toFixed2 (x : jsnum) : string :=
  match x with
  | NNaN => "NaN"
  | NInf false => "Infinity"
  | NInf true => "-Infinity"
  | NFin q =>
      let sign := if Qle_bool 0 q then EmptyString else "-" in
      let y := if Qle_bool 0 q then q else - q in
      if Qle_bool (inject_Z (10 ^ 21)) y then sign ++ big_to_string y
      else
        let n := ((200 * Qnum y + Zpos (Qden y)) / (2 * Zpos (Qden y)))%Z in
        let m := decimal n in
        let m := match m with
                 | String _ EmptyString => "00" ++ m
                 | String _ (String _ EmptyString) => "0" ++ m
                 | _ => m
                 end in
        let l := String.length m in
        sign ++ substring 0 (l - 2) m ++ "." ++ substring (l - 2) 2 m
  end.

Definition half : jsnum := NFin (1 # 2).
(** [const eps = 0.05]: the double nearest to 0.05. *)
Definition eps : jsnum := round_double (5 # 100).

(** What running [ffprobe] on a file gives: a spawn error, or an exit
    code ([None] when killed by a signal) with its standard output. *)
Inductive probe_outcome :=
| ProbeSpawnError
| ProbeExit (code : option Z) (stdout : string).

(** [getMediaDuration] *)
Definition getMediaDuration (o : probe_outcome) : jsnum :=
  match o with
  | ProbeSpawnError => NFin 0
  | ProbeExit (Some 0%Z) out =>
      let v := parseFloat (JS.trim out) in if is_nan v then NFin 0 else v
  | ProbeExit _ _ => NFin 0
  end.

(** Effects: directory creation and the subprocesses spawned. *)
Inductive cmd :=
| Mkdir (dir : string)
| Ffprobe (file : string)
| FfmpegSilent (dur : string) (dest : string)       (* -t dur *)
| FfmpegTrim (src : string) (dur : string) (dest : string)
| FfmpegConcat (src1 src2 dest : string)
| FfmpegMerge (video audio out : string).

Definition is_subprocess (c : cmd) : bool :=
  match c with Mkdir _ => false | _ => true end.

Inductive result (A : Type) := Ok (a : A) | Err (msg : string).
Arguments Ok {A} a.
Arguments Err {A} msg.

(** An async computation: the effects it performs, then its settlement. *)
Definition M (A : Type) := (list cmd * result A)%type.

Definition ret {A} (a : A) : M A := ([], Ok a).
Definition bind {A B} (m : M A) (f : A -> M B) : M B :=
  match m with
  | (c1, Ok a) => let '(c2, r) := f a in (List.app c1 c2, r)
  | (c1, Err e) => (c1, Err e)
  end.
Definition emit (c : cmd) : M unit := ([c], Ok tt).
Definition throw {A} (msg : string) : M A := ([], Err msg).

Notation "x <- m ;; k" := (bind m (fun x => k)) (at level 61, m at next level, right associativity).
Notation "m ;;; k" := (bind m (fun _ => k)) (at level 61, right associativity).

Section Effects.
(** [fs.existsSync] on the files present before the call. *)
Variable exists_file : string -> bool.
(** What [ffprobe] reports for each file. *)
Variable probe : string -> probe_outcome.
(** Whether an [ffmpeg] run exits 0 and leaves a (non-empty) output. *)
Variable ffmpeg_ok : cmd -> bool.
(** [Date.now()], as text. *)
Variable now : string.

Definition join (dir name : string) : string := dir ++ "/" ++ name.

Definition media_duration (p : string) : M jsnum :=
  emit (Ffprobe p) ;;; ret (getMediaDuration (probe p)).

Definition run_ffmpeg (c : cmd) (out : string) (failure : string) : M string :=
  emit c ;;; if ffmpeg_ok c then ret out else throw failure.

(** [createSilentAudio(durationSec, destPath)] *)
Definition createSilentAudio (durationSec : jsnum) (destPath : string) : M string :=
  let dur := toFixed2 (num_max half (num_or durationSec (NFin 1))) in
  run_ffmpeg (FfmpegSilent dur destPath) destPath "createSilentAudio failed".

Definition audio_present (audioPath : option string) : bool :=
  match audioPath with
  | Some p => JS.truthy p && exists_file p
  | None => false
  end.

(** [padOrTrimAudioToMatch(videoPath, audioPath, outputDir)] *)
Definition padOrTrimAudioToMatch (videoPath : string) (audioPath : option string)
    (outputDir : string) : M string :=
  emit (Mkdir outputDir) ;;;
  match audioPath with
  | Some a =>
    if audio_present audioPath then
      videoDur <- media_duration videoPath ;;
      audioDur <- media_duration a ;;
      if num_lt (num_add videoDur eps) audioDur then
        let out := join outputDir ("audio_trim_" ++ now ++ ".m4a") in
        run_ffmpeg (FfmpegTrim a (toFixed2 videoDur) out) out "trim failed"
      else if num_lt audioDur (num_sub videoDur eps) then
        let diff := num_max half (num_sub videoDur audioDur) in
        let silentPart := join outputDir ("pad_silent_" ++ now ++ ".m4a") in
        createSilentAudio diff silentPart ;;;
        let out := join outputDir ("audio_padded_" ++ now ++ ".m4a") in
        run_ffmpeg (FfmpegConcat a silentPart out) out "pad concat failed"
      else ret a
    else
      videoDur <- media_duration videoPath ;;
      let out := join outputDir ("silent_" ++ now ++ ".m4a") in
      createSilentAudio (num_or videoDur (NFin 1)) out
  | None =>
      videoDur <- media_duration videoPath ;;
      let out := join outputDir ("silent_" ++ now ++ ".m4a") in
      createSilentAudio (num_or videoDur (NFin 1)) out
  end.

(** [ensureAudioForMerge] *)
Definition ensureAudioForMerge (videoPath : string) (audioPath : option string)
    (outputDir : string) : M string :=
  emit (Mkdir outputDir) ;;; padOrTrimAudioToMatch videoPath audioPath outputDir.

(** [mergeVideoAndAudio(videoPath, audioPath)] with its default options
    ([outputDir] is [scripts/outputs]); a missing video is [None]. *)
Definition mergeVideoAndAudio (outputDir : string) (videoPath : option string)
    (audioPath : option string) : M string :=
  match videoPath with
  | Some v =>
    if negb (JS.truthy v && exists_file v) then throw ("Video file not found: " ++ v)
    else
      emit (Mkdir outputDir) ;;;
      let outFile := join outputDir ("final_" ++ now ++ ".mp4") in
      audioToUse <- ensureAudioForMerge v audioPath outputDir ;;
      run_ffmpeg (FfmpegMerge v audioToUse outFile) outFile "ffmpeg exited with an error"
  | None => throw "Video file not found: undefined"
  end.

End Effects.

End Audio.

(* ------------------------------------------------------------------ *)
(** ** [cleanupTempAudioFiles] (src/server/lib/audio.js) *)

Module Cleanup.

(** The patterns [/^silent_/, /^audio_trim_/, /^audio_padded_/,
    /^pad_silent_/]. *)
Definition temp_prefixes : list string :=
  ["silent_"; "audio_trim_"; "audio_padded_"; "pad_silent_"].

(** [patterns.some((rx) => rx.test(name))] *)
Definition is_temp (name : string) : bool :=
  existsb (fun p => JS.starts_with p name) temp_prefixes.

(** A directory as the entry names [readdir] lists; [existsSync(join(dir,
    name))] is membership. *)
Definition mem (name : string) (entries : list string) : bool :=
  existsb (String.eqb name) entries.

Fixpoint remove_name (name : string) (entries : list string) : list string :=
  match entries with
  | [] => []
  | e :: r => if String.eqb name e then remove_name name r else e :: remove_name name r
  end.

Section Run.
(** Whether [unlink] of a path succeeds (its failures are swallowed). *)
Variable unlink_ok : string -> bool.

(** One iteration of the [for] loop: the entries left and the paths given
    to [unlink] so far. *)
Definition cleanup_step (dir : string) (st : list string * list string) (name : string)
  : list string * list string :=
  let '(entries, unlinked) := st in
  if is_temp name then
    let full := Audio.join dir name in
    if mem name entries then
      (if unlink_ok full then remove_name name entries else entries,
       List.app unlinked [full])
    else (entries, unlinked)
  else (entries, unlinked).

(** [cleanupTempAudioFiles(dir)] on a directory whose listing is [listing]
    ([None] when [readdir] rejects): the listing afterwards and the paths
    unlinked, in order.  The function never rejects. *)
Definition cleanupTempAudioFiles (dir : string) (listing : option (list string))
  : option (list string) * list string :=
  match listing with
  | None => (None, [])
  | Some items =>
      let '(entries, unlinked) := fold_left (cleanup_step dir) items (items, []) in
      (Some entries, unlinked)
  end.

End Run.


End Cleanup.

(* ------------------------------------------------------------------ *)
(** ** [verifyAudioFile] (src/server/lib/audio.js) *)

Module Verify.
Import Json.

Section Str.
(** [Number.prototype.toString] on a finite number. *)
Variable number_to_string : Q -> string.

(** [String(v)] for a parsed JSON value; in an array, [null] elements
    print as the empty string ([Array.prototype.join]). *)
Fixpoint js_to_string (v : jsval) : string :=
  match v with
  | JNull => "null"
  | JBool true => "true"
  | JBool false => "false"
  | JNum q => number_to_string q
  | JStr s => s
  | JArr l =>
      (fix go (l : list jsval) : string :=
         match l with
         | [] => ""
         | x :: r =>
             let sx := match x with JNull => "" | _ => js_to_string x end in
             match r with
             | [] => sx
             | _ => sx ++ "," ++ go r
             end
         end) l
  | JObj _ => "[object Object]"
  end.

(** [String(v)] for a property read: [undefined] prints as "undefined". *)
Definition opt_to_string (o : option jsval) : string :=
  match o with Some v => js_to_string v | None => "undefined" end.

End Str.

(** The object [verifyAudioFile] resolves to.  [info_extra] holds
    [format.format_name] and [streams] when the object has them. *)
Record AudioInfo := mkInfo {
  info_exists : bool;
  info_size : nat;
  info_duration : Audio.jsnum;
  info_hasAudio : bool;
  info_extra : option (option jsval * jsval)
}.

(** [{ exists: true, size, duration: 0, hasAudio: false }] *)
Definition fallback (size : nat) : AudioInfo :=
  {| info_exists := true; info_size := size; info_duration := Audio.NFin 0;
     info_hasAudio := false; info_extra := None |}.

(** [x || d] on a property read. *)
Definition or_default (o : option jsval) (d : jsval) : jsval :=
  match o with Some v => if Repair.truthy v then v else d | None => d end.

(** [st.codec_type === "audio"] on a non-null [st]. *)
Definition is_audio (st : jsval) : bool :=
  match get st "codec_type" with
  | Some (JStr s) => String.eqb s "audio"
  | _ => false
  end.

(** [streams.some((st) => st.codec_type === "audio")]: [None] is the
    [TypeError] of reading [codec_type] of [null]; [some] stops at the
    first hit. *)
Fixpoint some_audio (l : list jsval) : option bool :=
  match l with
  | [] => Some false
  | JNull :: _ => None
  | st :: r => if is_audio st then Some true else some_audio r
  end.

Section Probe.
Variable number_to_string : Q -> string.

(** The [close] and [error] handlers of the [ffprobe] run, for a file of
    the given size. *)
Definition probe_info (size : nat) (o : Audio.probe_outcome) : AudioInfo :=
  match o with
  | Audio.ProbeExit (Some 0%Z) out =>
      match parse (if JS.truthy out then out else "{}") with
      | None => fallback size
      | Some JNull => fallback size
      | Some info =>
          let streams := or_default (get info "streams") (JArr []) in
          let format := or_default (get info "format") (JObj []) in
          match streams with
          | JArr l =>
              match some_audio l with
              | None => fallback size
              | Some hasAudio =>
                  {| info_exists := true; info_size := size;
                     info_duration :=
                       Audio.num_or
                         (Audio.parseFloat (opt_to_string number_to_string (get format "duration")))
                         (Audio.NFin 0);
                     info_hasAudio := hasAudio;
                     info_extra := Some (get format "format_name", streams) |}
              end
          (* [streams.some] is not a function *)
          | _ => fallback size
          end
      end
  | _ => fallback size
  end.

(** Effects of [verifyAudioFile]. *)
Inductive vevent := VStat (p : string) | VProbe (p : string).

Variable exists_file : string -> bool.
(** [stat(p).size] *)
Variable size_of : string -> nat.
(** What the JSON [ffprobe] run on a file gives. *)
Variable probe_json : string -> Audio.probe_outcome.

(** [verifyAudioFile(filePath)]; a missing path is [None]. *)
Definition verifyAudioFile (filePath : option string) : list vevent * Audio.result AudioInfo :=
  match filePath with
  | Some p =>
      if JS.truthy p && exists_file p then
        ([VStat p; VProbe p], Audio.Ok (probe_info (size_of p) (probe_json p)))
      else ([], Audio.Err ("Audio file does not exist: " ++ p))
  | None => ([], Audio.Err "Audio file does not exist: undefined")
  end.

End Probe.

End Verify.

(* ------------------------------------------------------------------ *)
(** ** [mergeVideoAndAudioWithVolume], [mergeVideoAndAudioWithFade],
    [mergeVideoAndAudioWithFilter] (src/server/index.js) *)

Module MergeVariants.
Import Audio.

(** Effects: those of [ensureAudioForMerge] and the final subprocesses. *)
Inductive vcmd :=
| Prep (c : cmd)
| FfprobeDur (video : string)
| FfmpegVolume (video audio : string) (level : jsnum) (out : string)
| FfmpegFade (video audio : string) (fadeIn fadeOutStart fadeOut : jsnum) (out : string)
| FfmpegFilter (video audio filter out : string).

(** [Math.max(0, durationSec - fadeOutDuration)] *)
Definition fade_out_start (durationSec fadeOutDuration : jsnum) : jsnum :=
  num_max (NFin 0) (num_sub durationSec fadeOutDuration).

Section Effects.
Variable exists_file : string -> bool.
Variable probe : string -> probe_outcome.
Variable ffmpeg_ok : cmd -> bool.
(** Whether the final [ffmpeg] run exits 0 and leaves the output file. *)
Variable final_ok : vcmd -> bool.
(** Exit code and standard output of the [ffprobe] run of the fade variant
    (a failure to spawn it is not modelled). *)
Variable fade_probe : string -> option Z * string.
Variable now : string.

(** The common start: the video check, [mkdir], [ensureAudioForMerge],
    then the final step [k] given the output file and the prepared
    audio. *)
Definition merge_with (prefix : string) (outputDir : string) (videoPath : option string)
    (audioPath : option string) (k : string -> string -> string -> list vcmd * result string)
  : list vcmd * result string :=
  match videoPath with
  | None => ([], Err "Video file not found: undefined")
  | Some v =>
      if negb (JS.truthy v && exists_file v) then ([], Err ("Video file not found: " ++ v))
      else
        let outFile := join outputDir (prefix ++ now ++ ".mp4") in
        let '(cs, r) := ensureAudioForMerge exists_file probe ffmpeg_ok now v audioPath outputDir in
        let pre := map Prep (Mkdir outputDir :: cs) in
        match r with
        | Err e => (pre, Err e)
        | Ok audioToUse => let '(cs', r') := k v audioToUse outFile in (List.app pre cs', r')
        end
  end.

Definition run_final (c : vcmd) (outFile : string) : list vcmd * result string :=
  ([c], if final_ok c then Ok outFile else Err "ffmpeg failed with code").


(** [mergeVideoAndAudioWithFade(videoPath, audioPath, fadeIn, fadeOut)]:
    the [close] handler of [ffprobe] ignores its exit code. *)
Definition mergeVideoAndAudioWithFade (outputDir : string) (videoPath audioPath : option string)
    (fadeInDuration fadeOutDuration : jsnum) : list vcmd * result string :=
  merge_with "final_fade_" outputDir videoPath audioPath
    (fun v a outFile =>
       let durationSec := parseFloat (JS.trim (snd (fade_probe v))) in
       let fadeOutStart := fade_out_start durationSec fadeOutDuration in
       let '(cs, r) := run_final (FfmpegFade v a fadeInDuration fadeOutStart fadeOutDuration outFile) outFile in
       (FfprobeDur v :: cs, r)).


End Effects.

End MergeVariants.

(* ------------------------------------------------------------------ *)
(** ** [generateScenePlan] and [generateManimCode] (src/server/index.js) *)

Module Prompts.
Import Json.

Definition nl : string := String (ascii_of_nat 10) EmptyString.
Definition bslash : string := String (ascii_of_nat 92) EmptyString.

(** The message templates below write each double quote of the source as a
    backquote (a character the templates do not contain); [with_quotes]
    puts the double quotes back. *)
Fixpoint with_quotes (s : string) : string :=
  match s with
  | EmptyString => EmptyString
  | String c r =>
      String (if Nat.eqb (nat_of_ascii c) 96 then ascii_of_nat 34 else c) (with_quotes r)
  end.

(** The argument of [groq.chat.completions.create]: model, temperature and
    the messages as (role, content) pairs. *)
Record request := mkRequest {
  req_model : string;
  req_temperature : Q;
  req_messages : list (string * string)
}.

Definition model : string := "llama-3.3-70b-versatile".

Section Str.
(** [Number.prototype.toString] on a finite number. *)
Variable number_to_string : Q -> string.

Definition hex_digit (n : nat) : string :=
  String (ascii_of_nat (if n <? 10 then 48 + n else 87 + n)) EmptyString.

(** The characters of a string as [JSON.stringify] writes them between the
    quotes. *)
Fixpoint quote_body (s : string) : string :=
  match s with
  | EmptyString => EmptyString
  | String c r =>
      let n := nat_of_ascii c in
      let e :=
        if n =? 34 then bslash ++ dquote
        else if n =? 92 then bslash ++ bslash
        else if n =? 8 then bslash ++ "b"
        else if n =? 12 then bslash ++ "f"
        else if n =? 10 then bslash ++ "n"
        else if n =? 13 then bslash ++ "r"
        else if n =? 9 then bslash ++ "t"
        else if n <? 32 then bslash ++ "u00" ++ hex_digit (n / 16) ++ hex_digit (n mod 16)
        else String c EmptyString in
      e ++ quote_body r
  end.

Definition quote (s : string) : string := dquote ++ quote_body s ++ dquote.

(** [JSON.stringify(v, null, 2)] on a parsed value, at indentation [ind]. *)
Fixpoint stringify (ind : string) (v : jsval) : string :=
  match v with
  | JNull => "null"
  | JBool true => "true"
  | JBool false => "false"
  | JNum q => number_to_string q
  | JStr s => quote s
  | JArr [] => "[]"
  | JArr l =>
      "[" ++ nl ++ ind ++ "  " ++
      String.concat ("," ++ nl ++ ind ++ "  ") (map (stringify (ind ++ "  ")) l) ++
      nl ++ ind ++ "]"
  | JObj [] => "{}"
  | JObj fs =>
      "{" ++ nl ++ ind ++ "  " ++
      String.concat ("," ++ nl ++ ind ++ "  ")
        (map (fun '(k, x) => quote k ++ ": " ++ stringify (ind ++ "  ") x) fs) ++
      nl ++ ind ++ "}"
  end.

(** The properties of an object literal whose value is not [undefined]
    (those [JSON.stringify] writes). *)
Fixpoint defined (fs : list (string * option jsval)) : list (string * jsval) :=
  match fs with
  | [] => []
  | (k, Some x) :: r => (k, x) :: defined r
  | (k, None) :: r => defined r
  end.

(** [`${x}`] on a property read. *)
Definition str (o : option jsval) : string := Verify.opt_to_string number_to_string o.

(** The system message of [generateScenePlan], around its two
    interpolations. *)
Definition scene_plan_system (languageInstruction language : string) : string :=
  nl ++ with_quotes "You are a precise Manim scene planner with narration abilities.
Return ONLY JSON in this format:

{
  `scene_name`: `SceneName`,
  `objects`: [`list of objects`],
  `actions`: [`list of actions in order`],
  `narration`: `Clear, educational narration text`,
  `captions`: [
    {`text`: `Caption 1`, `start_time`: 0, `duration`: 3},
    {`text`: `Caption 2`, `start_time`: 3, `duration`: 4}
  ]
}

" ++ languageInstruction ++ "

IMPORTANT: The narration field must contain the actual narration text in " ++ language ++ ", not a description of what to say.
Make the narration engaging and educational, explaining the concept clearly.
Captions should be concise and sync with narration timing." ++ nl.

(** The system message of [generateManimCode]. *)
Definition manim_system : string :=
  nl ++ with_quotes ("You are a Manim CE expert programmer.
Return only strict JSON:

{
  `scene_name`: `SceneName`,
  `manim_code`: `Full valid Manim CE Python code string`
}

CRITICAL RULES:
1. Import: from manim import *
2. Class name MUST match scene_name exactly
3. Use Text() for captions, MathTex() only for math equations
4. For MathTex with special symbols:
   - Use single backslash in raw strings: r`M_{\odot}` NOT r`M_{\\odot}`
   - Subscripts need braces: M_{\odot} not M_\odot
   - Example: MathTex(r`F = G \frac{M_1 M_2}{r^2}`)
5. Use get_opacity()/set_opacity() methods, not .opacity attribute
6. Do not chain methods after .become()
7. Use self.play() for all animations
8. Use self.wait() between major actions
9. Add captions from scenePlanJSON.captions at bottom of screen
10. Each caption should: Text(cap[`text`], font_size=28).to_edge(DOWN)
11. Use Write() for captions with run_time matching duration
12. FadeOut previous caption before showing next one" ++ nl ++ nl ++ "Example structure:
from manim import *

class SceneName(Scene):
    def construct(self):
        # Create objects
        obj = Circle()
        self.play(Create(obj))
        
        # Show caption
        caption1 = Text(`First caption`, font_size=28).to_edge(DOWN)
        self.play(Write(caption1), run_time=3)
        self.play(FadeOut(caption1))
        
        # More animations
        self.play(obj.animate.shift(RIGHT))
        self.wait(2)

If fixing code, only change what's broken. Keep working parts unchanged.") ++ nl.

(** [generateScenePlan(input)]; [None] is the [TypeError] of destructuring
    [null]. *)
Definition generateScenePlan (input : jsval) : option request :=
  match input with
  | JNull => None
  | _ =>
    let '(description, language) :=
      match input with
      | JStr s => (Some (JStr s), Some (JStr "nepali"))
      | _ => (get input "description", get input "language")
      end in
    let languageInstruction :=
      match language with
      | Some (JStr l) =>
          if String.eqb l "nepali"
          then "Write the narration ONLY in Nepali (Devanagari script). This is CRITICAL - the narration MUST be in Nepali language."
          else "Write the narration in English."
      | _ => "Write the narration in English."
      end in
    Some {| req_model := model; req_temperature := 3 # 10;
            req_messages :=
              [("system", scene_plan_system languageInstruction (str language));
               ("user", "Create a scene plan with narration (in " ++ str language ++
                        ") and captions for: " ++ dquote ++ str description ++ dquote ++ ". " ++
                        nl ++ nl ++ "Remember: Write the narration text in " ++ str language ++
                        " language. Return ONLY JSON.")] |}
  end.

(** The request of the fix branch of [generateManimCode]. *)
Definition fix_request (manim_error previous_code : string) : request :=
  {| req_model := model; req_temperature := 2 # 10;
     req_messages :=
       [("system", manim_system);
        ("user", "Fix this Manim code. Error:" ++ nl ++ manim_error ++ nl ++ nl ++ "Code:" ++ nl ++
                 previous_code ++ nl ++ nl ++
                 "Return corrected code as JSON. Only fix the error, keep everything else the same.")] |}.

(** The request of the [else] branch of [generateManimCode]. *)
Definition create_request (scenePlanJSON : jsval) : request :=
  let captions := get scenePlanJSON "captions" in
  let captionsStr :=
    match captions with
    | Some c => if Repair.truthy c
                then nl ++ "Captions (include these in the animation):" ++ nl ++ stringify "" c
                else ""
    | None => ""
    end in
  let scene := JObj (defined [("scene_name", get scenePlanJSON "scene_name");
                              ("objects", get scenePlanJSON "objects");
                              ("actions", get scenePlanJSON "actions")]) in
  {| req_model := model; req_temperature := 2 # 10;
     req_messages :=
       [("system", manim_system);
        ("user", "Create Manim CE code for this scene:" ++ nl ++ stringify "" scene ++
                 captionsStr ++ nl ++ nl ++ "Return complete working code as JSON.")] |}.

(** [generateManimCode(scenePlanJSON)]; [None] is the [TypeError] of
    reading a property of [null]. *)
Definition generateManimCode (scenePlanJSON : jsval) : option request :=
  match scenePlanJSON with
  | JNull => None
  | _ =>
    let manim_error := get scenePlanJSON "manim_error" in
    let previous_code := get scenePlanJSON "previous_code" in
    Some (if Repair.truthy_opt manim_error && Repair.truthy_opt previous_code
          then fix_request (str manim_error) (str previous_code)
          else create_request scenePlanJSON)
  end.

End Str.

(** The object [{ ...scenePlan, previous_code, manim_error,
    manim_video_missing }] a plan of [generateUntilNoManimErrors] stands
    for. *)
Definition plan_val (p : Repair.ScenePlan) : jsval :=
  JObj (("scene_name", JStr (Repair.scene_name p)) ::
        List.app
          (defined [("previous_code", option_map JStr (Repair.previous_code p));
                    ("manim_error", option_map JStr (Repair.manim_error p));
                    ("manim_video_missing", option_map JBool (Repair.manim_video_missing p))])
          (Repair.other_fields p)).

(** What a generator of [feedbackLoop] receives: the caller's input, or the
    corrective [{ role: "user", content }] object. *)
Definition input_val {I} (f : I -> jsval) (x : Feedback.finput I) : jsval :=
  match x with
  | Feedback.Orig i => f i
  | Feedback.Reprompt c => JObj [("role", JStr "user"); ("content", JStr c)]
  end.

End Prompts.

(* ------------------------------------------------------------------ *)
(** ** The [/generateVideo] route (src/server/index.js) *)

Module Route.
Import Json.

(** A response: status code and JSON body. *)
Record response := mkResponse { status : nat; body : jsval }.

(** The [catch] of the route: [res.status(500).json(...)] with the
    message of the error thrown. *)
Definition fail500 (details : string) : response :=
  {| status := 500;
     body := JObj [("status", JStr "error"); ("message", JStr "Failed to generate video");
                   ("details", JStr details)] |}.

(** The route up to the scene plan check: its response when it stops
    there, or the scene plan it goes on with ([inr]), with the calls of
    [feedbackLoop(generateScenePlan, ...)].  [planGen] is [generateScenePlan]
    with the model's answers; [narration_language] is [NARRATION_LANGUAGE]. *)
Definition route_plan (narration_language : string)
    (planGen : nat -> Feedback.finput jsval -> Feedback.gen_result) (reqBody : jsval)
  : list (Feedback.call jsval) * (response + jsval) :=
  match get reqBody "description" with
  | Some description =>
      if Repair.truthy description then
        let targetLanguage :=
          match get reqBody "language" with
          | Some l => if Repair.truthy l then l else JStr narration_language
          | None => JStr narration_language
          end in
        let '(calls, scenePlan) :=
          Feedback.feedbackLoop planGen
            (JObj [("description", description); ("language", targetLanguage)]) 3 in
        (calls,
         match scenePlan with
         | JNull => inl (fail500 "Cannot read properties of null (reading 'scene_name')")
         | _ => if Repair.truthy_opt (get scenePlan "scene_name") then inr scenePlan
                else inl (fail500 "Scene plan generation failed")
         end)
      else ([], inl {| status := 400; body := JObj [("error", JStr "Description is required")] |})
  | None => ([], inl {| status := 400; body := JObj [("error", JStr "Description is required")] |})
  end.

(** [raw.replace(/^```json\n?/, "")] *)
Definition strip_json_fence (s : string) : string :=
  match strip_prefix "```json" s with
  | None => s
  | Some r => match strip_prefix Feedback.nl r with Some r' => r' | None => r end
  end.

(** [raw.replace(/^```json\n?/, "").replace(/```$/, "")] *)
Definition clean (raw : string) : string :=
  Feedback.strip_trailing_fence (strip_json_fence raw).

(** The [feedback] field of the success response, from the outcome of the
    critique call: [feedbackJSON] after the [try] block.  A parsed [null]
    makes [feedbackJSON.manim_code] throw, which the outer [catch] turns
    into [{ summary: null }]; the rendering and voice steps catch their own
    errors and leave [feedbackJSON] as it is. *)
Definition feedback_json (resp : Feedback.gen_result) : jsval :=
  match resp with
  | Feedback.Throws => JObj [("summary", JNull)]
  | Feedback.Responds c =>
      let raw := Feedback.content_of c in
      let fj := match parse (clean raw) with
                | Some v => v
                | None => JObj [("summary", JNull); ("raw", JStr raw)]
                end in
      match fj with
      | JNull => JObj [("summary", JNull)]
      | _ => fj
      end
  end.

End Route.


(* ------------------------------------------------------------------ *)
(** ** [generateNepaliVoice] (src/server/lib/audio.js) *)

Module Voice.
Import Json.

(** What the [axios.post] call gives before [validateStatus]: a rejection
    (network error, timeout) with its message, or a response with its
    status and body bytes. *)
Inductive http_outcome :=
| HttpError (msg : string)
| HttpResponse (status : nat) (data : list Byte.byte).

(** Observable effects, in order. *)
Inductive effect :=
| EMkdir (dir : string)                      (* mkdir(scriptsPath, { recursive: true }) *)
| EPost (url text : string)                  (* axios.post(url, { text, ... }) *)
| EWrite (path : string) (data : list Byte.byte)  (* writeFile(outputPath, audioBuffer) *)
| EStat (path : string)                      (* stat(outputPath) *)
| EVerify (e : Verify.vevent).               (* the effects of verifyAudioFile *)

Section Gen.
(** [process.env.ELEVENLABS_API_KEY] ([None]: unset). *)
Variable ELEVENLABS_KEY : option string.
(** [ELEVENLABS_VOICE_ID] *)
Variable voiceId : string.
(** [join(__dirname, "..", "scripts")] *)
Variable scriptsPath : string.
(** [Date.now()], as text. *)
Variable now : string.
(** The outcome of [mkdir], [writeFile] and [stat]: [None] when it
    resolves, the message of the rejection otherwise. *)
Variable mkdir : string -> option string.
Variable write : string -> list Byte.byte -> option string.
Variable stat : string -> option string.
(** The ElevenLabs endpoint, for a URL and the [text] field of the payload
    (the other fields are constants). *)
Variable post : string -> string -> http_outcome.
(** [Number.prototype.toString] on a status code. *)
Variable status_to_string : nat -> string.
(** [Buffer.from(data).toString("utf-8")] *)
Variable decode_utf8 : list Byte.byte -> string.
(** The environment of [verifyAudioFile], once the file is written. *)
Variable number_to_string : Q -> string.
Variable exists_file : string -> bool.
Variable size_of : string -> nat.
Variable probe_json : string -> Audio.probe_outcome.

Definition key_set : bool :=
  match ELEVENLABS_KEY with Some k => JS.truthy k | None => false end.

Definition outputPath : string := Audio.join scriptsPath ("voice_" ++ now ++ ".mp3").

Definition url : string := "https://api.elevenlabs.io/v1/text-to-speech/" ++ voiceId.

(** [axios.post] with [validateStatus: (status) => status < 500]: a status
    of 500 or more rejects. *)
Definition axios_post (u text : string) : Audio.result (nat * list Byte.byte) :=
  match post u text with
  | HttpError msg => Audio.Err msg
  | HttpResponse st data =>
      if st <? 500 then Audio.Ok (st, data)
      else Audio.Err ("Request failed with status code " ++ status_to_string st)
  end.

(** The [try] block, from the POST on; its [catch] only logs and rethrows. *)
Definition after_post (r : Audio.result (nat * list Byte.byte))
  : list effect * Audio.result string :=
  match r with
  | Audio.Err msg => ([], Audio.Err msg)
  | Audio.Ok (st, data) =>
      if negb (st =? 200) then
        ([], Audio.Err ("ElevenLabs API returned " ++ status_to_string st ++ ": " ++
                        decode_utf8 data))
      else if length data =? 0 then ([], Audio.Err "ElevenLabs returned empty audio data")
      else
        match write outputPath data with
        | Some e => ([EWrite outputPath data], Audio.Err e)
        | None =>
            match stat outputPath with
            | Some e => ([EWrite outputPath data; EStat outputPath], Audio.Err e)
            | None =>
                let '(ev, vr) := Verify.verifyAudioFile number_to_string exists_file
                                   size_of probe_json (Some outputPath) in
                (EWrite outputPath data :: EStat outputPath :: map EVerify ev,
                 match vr with
                 | Audio.Ok _ => Audio.Ok outputPath
                 | Audio.Err e => Audio.Err e
                 end)
            end
        end
  end.

Definition generateNepaliVoice (text : string) : list effect * Audio.result string :=
  if negb key_set then ([], Audio.Err "ELEVENLABS_API_KEY not set in .env")
  else if negb (JS.truthy text) || (String.length (JS.trim text) =? 0) then
    ([], Audio.Err "Cannot generate voice for empty text")
  else
    match mkdir scriptsPath with
    | Some e => ([EMkdir scriptsPath], Audio.Err e)
    | None =>
        let '(ev, r) := after_post (axios_post url (JS.trim text)) in
        (EMkdir scriptsPath :: EPost url (JS.trim text) :: ev, r)
    end.

End Gen.

End Voice.

(* ================================================================== *)
(** * Properties *)

(** ** String facts *)

Lemma prefix_app (p b : string) : String.prefix p (p ++ b) = true.
Proof.
  induction p as [|c p IH]; simpl; [destruct b; reflexivity|].
  destruct (ascii_dec c c) as [_|n]; [exact IH|contradiction].
Qed.

Lemma includes_app_l (a s p : string) :
  JS.includes s p = true -> JS.includes (a ++ s) p = true.
Proof.
  intros H; induction a as [|c a IH]; simpl; [exact H|].
  rewrite IH; apply orb_true_r.
Qed.

Lemma includes_at (a p b : string) : JS.includes (a ++ p ++ b) p = true.
Proof.
  apply includes_app_l; destruct p; simpl.
  - destruct b; reflexivity.
  - destruct (ascii_dec a0 a0) as [_|n]; [|contradiction].
    rewrite prefix_app; reflexivity.
Qed.

(** ** [feedbackLoop] *)

Section FeedbackProofs.
Import Feedback.
Variable I : Type.
Variable gen : nat -> finput I -> gen_result.

Lemma fb_go_shape (fuel attempt : nat) (input : finput I) (last : string) :
  let r := fb_go gen fuel attempt input last in
  length (fst r) <= fuel /\
  ((exists pre a i c,
       fst r = List.app pre [(a, i, Responds c)] /\
       Forall (fun e : call I => fails (snd e) = true) pre /\
       Json.parse (strip_fences (JS.trim (content_of c))) = Some (snd r))
   \/ (length (fst r) = fuel /\
       Forall (fun e : call I => fails (snd e) = true) (fst r) /\
       snd r = Json.JObj [("raw", Json.JStr (raw_after last (fst r)))])).
Proof.
  revert attempt input last.
  induction fuel as [|fuel IH]; intros attempt input last.
  - simpl; split; [lia|right]; repeat split; constructor.
  - cbn [fb_go]; destruct (gen attempt input) as [|c] eqn:Hg.
    + specialize (IH (S attempt) (Reprompt (reprompt_text last)) last).
      destruct (fb_go gen fuel (S attempt) _ last) as [tr v]; simpl in *.
      destruct IH as [Hlen [(pre & a & i & c & Htr & Hpre & Hp) | (Hl & Hall & Hv)]].
      * split; [lia|left].
        exists ((attempt, input, Throws) :: pre), a, i, c.
        rewrite Htr; repeat split; [constructor; [reflexivity|exact Hpre] | exact Hp].
      * split; [lia|right]; repeat split; [lia| constructor; [reflexivity|exact Hall] | exact Hv].
    + cbv zeta.
      destruct (Json.parse _) as [v|] eqn:Hp.
      * simpl; split; [lia|left].
        exists [], attempt, input, c; repeat split; [constructor|exact Hp].
      * assert (Hf : fails (Responds c) = true)
          by (unfold fails; cbv beta iota; rewrite Hp; reflexivity).
        set (t := JS.trim (content_of c)).
        specialize (IH (S attempt) (Reprompt (reprompt_text t)) t).
        destruct (fb_go gen fuel (S attempt) _ t) as [tr v].
        cbv beta iota in *; cbn [fst snd length] in *.
        destruct IH as [Hlen [(pre & a & i & c' & Htr & Hpre & Hp') | (Hl & Hall & Hv)]].
        -- split; [lia|left].
           exists ((attempt, input, Responds c) :: pre), a, i, c'.
           rewrite Htr; repeat split; [constructor; [exact Hf|exact Hpre] | exact Hp'].
        -- split; [lia|right]; repeat split; [lia | constructor; [exact Hf|exact Hall] | exact Hv].
Qed.

End FeedbackProofs.

Section FeedbackClaims.
Import Feedback.

(** C4 (as amended): [feedbackLoop] calls the generator at most
    [maxRetries] times; the calls stop at the first answer that parses,
    whose parsed value is returned; otherwise all [maxRetries] calls failed
    and the loop resolves to [{ raw }] where [raw] is the trimmed content of
    the last answer received ("" if every call rejected).  The loop never
    rejects: its model has no failing result. *)
Theorem feedbackLoop_calls_bounded_and_raw_fallback {I : Type}
    (gen : nat -> finput I -> gen_result) (input : I) (maxRetries : nat) :
  let r := feedbackLoop gen input maxRetries in
  length (fst r) <= maxRetries /\
  ((exists pre a i c,
       fst r = List.app pre [(a, i, Responds c)] /\
       Forall (fun e : call I => fails (snd e) = true) pre /\
       Json.parse (strip_fences (JS.trim (content_of c))) = Some (snd r))
   \/ (length (fst r) = maxRetries /\
       Forall (fun e : call I => fails (snd e) = true) (fst r) /\
       snd r = Json.JObj [("raw", Json.JStr (raw_after "" (fst r)))])).
Proof. apply fb_go_shape. Qed.

(** C4, counterexample: a generator that always answers "  oops  " makes
    three failing calls and the loop resolves to [{ raw: "oops" }], not to
    the raw text "  oops  ". *)
Example feedbackLoop_raw_is_trimmed :
  let r := feedbackLoop (fun _ _ => Responds (Some "  oops  ")) tt 3 in
  Forall (fun e : call unit => fails (snd e) = true) (fst r) /\
  length (fst r) = 3 /\
  snd r = Json.JObj [("raw", Json.JStr "oops")] /\
  snd r <> Json.JObj [("raw", Json.JStr "  oops  ")].
Proof.
  intros r.
  assert (Hr : r = ([(1, Orig tt, Responds (Some "  oops  "));
                     (2, Reprompt (reprompt_text "oops"), Responds (Some "  oops  "));
                     (3, Reprompt (reprompt_text "oops"), Responds (Some "  oops  "))],
                    Json.JObj [("raw", Json.JStr "oops")]))
    by (vm_compute; reflexivity).
  rewrite Hr; cbn [fst snd].
  split; [repeat constructor; vm_compute; reflexivity|].
  split; [reflexivity|].
  split; [reflexivity|discriminate].
Qed.

(** C7 (as amended): when an answer's content fails to parse, the next
    iteration calls the generator with the re-prompt built from the content
    with surrounding white space trimmed; that re-prompt contains the
    trimmed text verbatim and demands a strict JSON object with no
    explanation. *)
Theorem feedbackLoop_reprompt_quotes_trimmed_text {I : Type}
    (gen : nat -> finput I -> gen_result) (fuel attempt : nat)
    (input : finput I) (last : string) (c : option string) :
  gen attempt input = Responds c ->
  fails (Responds c) = true ->
  let t := JS.trim (content_of c) in
  fb_go gen (S fuel) attempt input last =
    (let '(calls, v) := fb_go gen fuel (S attempt) (Reprompt (reprompt_text t)) t in
     ((attempt, input, Responds c) :: calls, v)) /\
  JS.includes (reprompt_text t) t = true /\
  JS.includes (reprompt_text t) "Please return a strict JSON object only" = true /\
  JS.includes (reprompt_text t) "No explanation." = true.
Proof.
  intros Hg Hf t.
  unfold fails in Hf.
  destruct (Json.parse (strip_fences (JS.trim (content_of c)))) eqn:Hp; [discriminate|].
  split.
  - cbn [fb_go]; rewrite Hg; cbv zeta; rewrite Hp; reflexivity.
  - unfold reprompt_text; split; [|split].
    + apply includes_app_l, includes_app_l.
      exact (includes_at "" t _).
    + do 5 apply includes_app_l; vm_compute; reflexivity.
    + do 5 apply includes_app_l; vm_compute; reflexivity.
Qed.

Lemma feedbackLoop_reprompt_quotes_trimmed_text_witness :
  (fun (_ : nat) (_ : finput unit) => Responds (Some "oops")) 1 (Orig tt) = Responds (Some "oops") /\
  fails (Responds (Some "oops")) = true /\
  (let t := JS.trim (content_of (Some "oops")) in
   fb_go (fun _ _ => Responds (Some "oops")) 2 1 (Orig tt) "" =
     (let '(calls, v) := fb_go (fun _ _ => Responds (Some "oops")) 1 2
                           (Reprompt (reprompt_text t)) t in
      ((1, Orig tt, Responds (Some "oops")) :: calls, v)) /\
   JS.includes (reprompt_text t) t = true /\
   JS.includes (reprompt_text t) "Please return a strict JSON object only" = true /\
   JS.includes (reprompt_text t) "No explanation." = true).
Proof.
  split; [reflexivity|].
  split; [vm_compute; reflexivity|].
  apply (feedbackLoop_reprompt_quotes_trimmed_text
           (fun _ _ => Responds (Some "oops")) 1 1 (Orig tt) "" (Some "oops"));
    [reflexivity | vm_compute; reflexivity].
Defined.

(** C7, counterexample: the answer TAB "x" does not parse, and the
    re-prompt of the second call does not contain it. *)
Example reprompt_omits_untrimmed_text :
  let raw := String (ascii_of_nat 9) "x" in
  fails (Responds (Some raw)) = true /\
  match fst (feedbackLoop (fun _ _ => Responds (Some raw)) tt 2) with
  | [_; (_, Reprompt m, _)] => JS.includes m raw = false
  | _ => False
  end.
Proof. vm_compute; split; reflexivity. Qed.

End FeedbackClaims.

(** ** [generateUntilNoManimErrors] *)

Section RepairProofs.
Import Json Repair.
Variable sp : string.
Variable codegen : nat -> ScenePlan -> jsval.
Variable render : nat -> string -> string -> RenderResult.

Lemma attempt_ok_same (r r' : RenderResult) :
  same_render r r' -> attempt_ok r = attempt_ok r'.
Proof.
  intros (Ho & He & Hv); unfold attempt_ok, no_errors, has_video.
  rewrite He, Hv; reflexivity.
Qed.

Lemma correction_same (plan : ScenePlan) (src : string) (r r' : RenderResult) :
  same_render r r' -> correction plan src r = correction plan src r'.
Proof.
  intros (Ho & He & Hv); unfold correction, has_video; rewrite He, Hv; reflexivity.
Qed.

(** The loop reads nothing of [runManim]'s result but [output], [errors]
    and [videoPath]: in particular not the exit-code based [success]. *)
Lemma rl_go_ignores_success (render' : nat -> string -> string -> RenderResult) :
  (forall a p s, same_render (render a p s) (render' a p s)) ->
  forall maxA fuel attempt plan mc mr mr',
    same_render mr mr' ->
    rl_go sp codegen render maxA fuel attempt plan mc mr =
    rl_go sp codegen render' maxA fuel attempt plan mc mr'.
Proof.
  intros Hr maxA fuel; induction fuel as [|fuel IH]; intros attempt plan mc mr mr' Hm.
  - destruct Hm as (Ho & He & Hv); simpl; rewrite Ho, He, Hv; reflexivity.
  - cbn [rl_go].
    destruct (negb (truthy_opt (get (codegen (S attempt) plan) "manim_code"))); [reflexivity|].
    destruct (get (codegen (S attempt) plan) "manim_code") as [[]|]; try reflexivity.
    pose proof (Hr (S attempt) (file_path sp plan) (scene_name plan)) as Hs.
    rewrite (attempt_ok_same _ _ Hs).
    destruct (attempt_ok (render' (S attempt) (file_path sp plan) (scene_name plan))).
    + destruct Hs as (Ho & He & Hv); rewrite Ho, He, Hv; reflexivity.
    + rewrite (correction_same plan s _ _ Hs).
      rewrite (IH (S attempt) _ (Some (codegen (S attempt) plan)) _ _ Hs).
      reflexivity.
Qed.

(** One iteration whose code is the string [src]. *)
Lemma rl_go_step (maxA fuel attempt : nat) (plan : ScenePlan) mc mr (src : string) :
  get (codegen (S attempt) plan) "manim_code" = Some (JStr src) ->
  JS.truthy src = true ->
  let fp := file_path sp plan in
  let r := render (S attempt) fp (scene_name plan) in
  rl_go sp codegen render maxA (S fuel) attempt plan mc mr =
  if attempt_ok r then
    ([EGen (S attempt) plan; EWrite fp src; ERender fp (scene_name plan)],
     Returned {| res_manimCode := Some (codegen (S attempt) plan);
                 res_output := output r; res_errors := errors r;
                 res_filePath := Some fp; res_videoPath := videoPath r;
                 res_attempts := S attempt |})
  else
    let '(evs', o) := rl_go sp codegen render maxA fuel (S attempt)
                        (correction plan src r) (Some (codegen (S attempt) plan)) r in
    (List.app [EGen (S attempt) plan; EWrite fp src; ERender fp (scene_name plan)]
              (ESleep 1000 :: evs'), o).
Proof.
  intros Hc Ht fp r.
  cbn [rl_go]; rewrite Hc; cbn [truthy_opt truthy]; rewrite Ht; reflexivity.
Qed.

End RepairProofs.

Section RepairMore.
Import Json Repair.
Variable sp : string.
Variable codegen : nat -> ScenePlan -> jsval.
Variable render : nat -> string -> string -> RenderResult.

Lemma rl_go_first_event (maxA fuel attempt : nat) plan mc mr :
  exists rest, fst (rl_go sp codegen render maxA (S fuel) attempt plan mc mr)
               = EGen (S attempt) plan :: rest.
Proof.
  cbn [rl_go].
  destruct (negb (truthy_opt (get (codegen (S attempt) plan) "manim_code"))); [eexists; reflexivity|].
  destruct (get (codegen (S attempt) plan) "manim_code") as [[]|]; try (eexists; reflexivity).
  destruct (attempt_ok _); [eexists; reflexivity|].
  destruct (rl_go _ _ _ _ _ _ _ _ _); eexists; reflexivity.
Qed.

Lemma count_gen_app (l1 l2 : list event) :
  count_gen (List.app l1 l2) = count_gen l1 + count_gen l2.
Proof. unfold count_gen; rewrite filter_app, length_app; reflexivity. Qed.

Section AlwaysFailing.
Hypothesis code_always :
  forall a p, exists src, get (codegen a p) "manim_code" = Some (JStr src) /\ JS.truthy src = true.
Hypothesis render_always_fails : forall a fp s, attempt_ok (render a fp s) = false.

Lemma rl_go_exhaust (maxA fuel : nat) :
  forall attempt plan mc mr,
  exists p,
    snd (rl_go sp codegen render maxA (S fuel) attempt plan mc mr) =
    snd (rl_go sp codegen render maxA 0 (S fuel + attempt) p
               (Some (codegen (S fuel + attempt) p))
               (render (S fuel + attempt) (file_path sp p) (scene_name p))) /\
    count_gen (fst (rl_go sp codegen render maxA (S fuel) attempt plan mc mr)) = S fuel.
Proof.
  induction fuel as [|fuel IH]; intros attempt plan mc mr;
    destruct (code_always (S attempt) plan) as (src & Hc & Ht);
    rewrite (rl_go_step sp codegen render maxA _ attempt plan mc mr src Hc Ht);
    rewrite render_always_fails.
  - exists plan; split; reflexivity.
  - destruct (IH (S attempt) (correction plan src (render (S attempt) (file_path sp plan) (scene_name plan)))
                 (Some (codegen (S attempt) plan))
                 (render (S attempt) (file_path sp plan) (scene_name plan))) as (p & Hsnd & Hcnt).
    destruct (rl_go sp codegen render maxA (S fuel) (S attempt) _ _ _) as [evs o] eqn:He.
    exists p; cbn [fst snd] in *; split.
    + rewrite Hsnd; replace (S (S fuel) + attempt) with (S fuel + S attempt) by lia; reflexivity.
    + change (ESleep 1000 :: evs) with (List.app [ESleep 1000] evs).
      rewrite !count_gen_app, Hcnt; reflexivity.
Qed.

End AlwaysFailing.
End RepairMore.

Section RepairClaims.
Import Json Repair.
Variable sp : string.
Variable codegen : nat -> ScenePlan -> jsval.
Variable render : nat -> string -> string -> RenderResult.

(** C2: an attempt whose code is written and rendered succeeds exactly
    when [runManim]'s [errors] trims to "" and a video path was located;
    then the loop returns that attempt's code, output, file and video path
    with no further effect; otherwise it sleeps and goes on.  Only
    [output], [errors] and [videoPath] of the render result matter: the
    exit-code based [success] field plays no role. *)
Theorem repair_success_condition (maxA fuel attempt : nat) (plan : ScenePlan)
    mc mr (src : string) :
  get (codegen (S attempt) plan) "manim_code" = Some (JStr src) ->
  JS.truthy src = true ->
  let fp := file_path sp plan in
  let r := render (S attempt) fp (scene_name plan) in
  ((JS.trim (errors r) = EmptyString /\ has_video r = true) ->
     rl_go sp codegen render maxA (S fuel) attempt plan mc mr =
     ([EGen (S attempt) plan; EWrite fp src; ERender fp (scene_name plan)],
      Returned {| res_manimCode := Some (codegen (S attempt) plan);
                  res_output := output r; res_errors := errors r;
                  res_filePath := Some fp; res_videoPath := videoPath r;
                  res_attempts := S attempt |})) /\
  (~ (JS.trim (errors r) = EmptyString /\ has_video r = true) ->
     rl_go sp codegen render maxA (S fuel) attempt plan mc mr =
     let '(evs', o) := rl_go sp codegen render maxA fuel (S attempt)
                         (correction plan src r) (Some (codegen (S attempt) plan)) r in
     (List.app [EGen (S attempt) plan; EWrite fp src; ERender fp (scene_name plan)]
               (ESleep 1000 :: evs'), o)) /\
  (forall render' : nat -> string -> string -> RenderResult,
     (forall a p s, same_render (render a p s) (render' a p s)) ->
     rl_go sp codegen render' maxA (S fuel) attempt plan mc mr =
     rl_go sp codegen render maxA (S fuel) attempt plan mc mr).
Proof.
  intros Hc Ht fp r.
  assert (Hok : attempt_ok r = true <-> (JS.trim (errors r) = EmptyString /\ has_video r = true)).
  { unfold attempt_ok, no_errors; rewrite andb_true_iff, String.eqb_eq; tauto. }
  pose proof (rl_go_step sp codegen render maxA fuel attempt plan mc mr src Hc Ht) as Hs.
  cbv zeta in Hs; fold fp in Hs; fold r in Hs.
  split; [|split].
  - intros H; apply Hok in H; rewrite Hs, H; reflexivity.
  - intros H; rewrite Hs.
    destruct (attempt_ok r) eqn:E; [exfalso; apply H, Hok; reflexivity|reflexivity].
  - intros render' Hr; symmetry.
    apply rl_go_ignores_success; [exact Hr|].
    repeat split.
Qed.

(** C6: when a generation pass yields no [manim_code] field, the loop
    returns at once with the "No manim_code" error, the current attempt
    count and no video path: the only effect of that iteration is the
    generation pass itself (no file written, no render, no retry). *)
Theorem repair_no_code_returns_at_once (maxA fuel attempt : nat) (plan : ScenePlan) mc mr :
  get (codegen (S attempt) plan) "manim_code" = None ->
  rl_go sp codegen render maxA (S fuel) attempt plan mc mr =
  ([EGen (S attempt) plan],
   Returned {| res_manimCode := Some (codegen (S attempt) plan);
               res_output := ""; res_errors := "No manim_code";
               res_filePath := None; res_videoPath := None;
               res_attempts := S attempt |}).
Proof. intros H; cbn [rl_go]; rewrite H; reflexivity. Qed.

End RepairClaims.

Section RepairClaimsWitnesses.
Import Json Repair.

Lemma repair_success_condition_witness :
  let cg := fun (_ : nat) (_ : ScenePlan) => JObj [("manim_code", JStr "code")] in
  let rd := fun (_ : nat) (_ : string) (_ : string) =>
              {| output := "ok"; errors := " "; videoPath := Some "/v.mp4"; success := false |} in
  let plan := {| scene_name := "S"; previous_code := None; manim_error := None;
                 manim_video_missing := None; other_fields := [] |} in
  get (cg 1 plan) "manim_code" = Some (JStr "code") /\ JS.truthy "code" = true /\
  rl_go "/scripts" cg rd 3 3 0 plan None initial_render =
    ([EGen 1 plan; EWrite "/scripts/S.py" "code"; ERender "/scripts/S.py" "S"],
     Returned {| res_manimCode := Some (cg 1 plan); res_output := "ok"; res_errors := " ";
                 res_filePath := Some "/scripts/S.py"; res_videoPath := Some "/v.mp4";
                 res_attempts := 1 |}).
Proof.
  intros cg rd plan.
  split; [reflexivity|split; [reflexivity|]].
  apply (proj1 (repair_success_condition "/scripts" cg rd 3 2 0 plan None initial_render
                  "code" eq_refl eq_refl)).
  split; vm_compute; reflexivity.
Defined.

Lemma repair_no_code_returns_at_once_witness :
  let cg := fun (_ : nat) (_ : ScenePlan) => JObj [("scene_name", JStr "S")] in
  let rd := fun (_ : nat) (_ : string) (_ : string) => initial_render in
  let plan := {| scene_name := "S"; previous_code := None; manim_error := None;
                 manim_video_missing := None; other_fields := [] |} in
  get (cg 1 plan) "manim_code" = None /\
  rl_go "/scripts" cg rd 3 3 0 plan None initial_render =
  ([EGen 1 plan],
   Returned {| res_manimCode := Some (cg 1 plan); res_output := "";
               res_errors := "No manim_code"; res_filePath := None;
               res_videoPath := None; res_attempts := 1 |}).
Proof.
  intros cg rd plan; split; [reflexivity|].
  apply (repair_no_code_returns_at_once "/scripts" cg rd 3 2 0 plan None initial_render).
  reflexivity.
Defined.

End RepairClaimsWitnesses.


Section RepairClaims2.
Import Json Repair.
Variable sp : string.
Variable codegen : nat -> ScenePlan -> jsval.
Variable render : nat -> string -> string -> RenderResult.

(** C1: after a failed render with attempts remaining, the loop sleeps and
    the next generation pass receives the plan with [previous_code] the
    failed attempt's code, [manim_error] the first 2000 characters of its
    [errors] and [manim_video_missing] set when no video was located; and a
    run whose first render fails and second succeeds resolves with
    [attempts] = 2. *)
Theorem repair_retry_payload :
  (forall (maxA f attempt : nat) (plan : ScenePlan) mc mr (src : string),
     get (codegen (S attempt) plan) "manim_code" = Some (JStr src) ->
     JS.truthy src = true ->
     let fp := file_path sp plan in
     let r := render (S attempt) fp (scene_name plan) in
     attempt_ok r = false ->
     let next := correction plan src r in
     (exists rest,
        fst (rl_go sp codegen render maxA (S (S f)) attempt plan mc mr) =
        List.app [EGen (S attempt) plan; EWrite fp src; ERender fp (scene_name plan);
                  ESleep 1000; EGen (S (S attempt)) next] rest) /\
     previous_code next = Some src /\
     manim_error next = Some (substring 0 2000 (errors r)) /\
     manim_video_missing next = Some (negb (has_video r)) /\
     scene_name next = scene_name plan /\
     other_fields next = other_fields plan) /\
  (forall (maxA : nat) (plan : ScenePlan) (src1 src2 : string),
     2 <= maxA ->
     let fp := file_path sp plan in
     let r1 := render 1 fp (scene_name plan) in
     get (codegen 1 plan) "manim_code" = Some (JStr src1) ->
     JS.truthy src1 = true ->
     attempt_ok r1 = false ->
     get (codegen 2 (correction plan src1 r1)) "manim_code" = Some (JStr src2) ->
     JS.truthy src2 = true ->
     attempt_ok (render 2 fp (scene_name plan)) = true ->
     exists R, snd (generateUntilNoManimErrors sp codegen render plan maxA) = Returned R /\
               res_attempts R = 2).
Proof.
  split.
  - intros maxA f attempt plan mc mr src Hc Ht fp r Hf next.
    split; [|repeat split].
    rewrite (rl_go_step sp codegen render maxA (S f) attempt plan mc mr src Hc Ht).
    fold fp r; rewrite Hf.
    unfold next.
    destruct (rl_go_first_event sp codegen render maxA f (S attempt) (correction plan src r)
                (Some (codegen (S attempt) plan)) r) as (rest & Hr).
    destruct (rl_go sp codegen render maxA (S f) (S attempt) (correction plan src r) _ r) as [evs o].
    cbn [fst] in Hr |- *; subst evs.
    exists rest; reflexivity.
  - intros maxA plan src1 src2 Hm fp r1 Hc1 Ht1 Hf1 Hc2 Ht2 Hs2.
    destruct maxA as [|[|k]]; [lia|lia|].
    unfold generateUntilNoManimErrors.
    rewrite (rl_go_step sp codegen render _ (S k) 0 plan None initial_render src1 Hc1 Ht1).
    fold fp r1; rewrite Hf1.
    rewrite (rl_go_step sp codegen render _ k 1 _ (Some (codegen 1 plan)) r1 src2 Hc2 Ht2).
    change (file_path sp (correction plan src1 r1)) with fp.
    change (scene_name (correction plan src1 r1)) with (scene_name plan).
    rewrite Hs2; cbn [snd].
    eexists; split; reflexivity.
Qed.

(** C5: when every generation pass yields string code and no render
    succeeds, a run with [maxAttempts] = 3 makes three generation passes
    and resolves with the last attempt's code, output and errors,
    [attempts] = 3, and a null video path when the last render located no
    video. *)
Theorem repair_exhausted_after_three (plan : ScenePlan) :
  (forall a p, exists src, get (codegen a p) "manim_code" = Some (JStr src) /\
                           JS.truthy src = true) ->
  (forall a fp s, attempt_ok (render a fp s) = false) ->
  count_gen (fst (generateUntilNoManimErrors sp codegen render plan 3)) = 3 /\
  exists p R,
    let r := render 3 (file_path sp p) (scene_name p) in
    snd (generateUntilNoManimErrors sp codegen render plan 3) = Returned R /\
    res_attempts R = 3 /\
    res_manimCode R = Some (codegen 3 p) /\
    res_output R = output r /\
    res_errors R = errors r /\
    res_filePath R = None /\
    (videoPath r = None -> res_videoPath R = None).
Proof.
  intros Hc Hf.
  destruct (rl_go_exhaust sp codegen render Hc Hf 3 2 0 plan None initial_render) as (p & Hs & Hn).
  split; [exact Hn|].
  exists p; eexists; cbv zeta.
  unfold generateUntilNoManimErrors; rewrite Hs; cbn [rl_go snd].
  repeat split; try reflexivity.
  intros Hv; cbn [res_videoPath]; simpl Nat.add; rewrite Hv; reflexivity.
Qed.

End RepairClaims2.

Section RepairClaims2Witnesses.
Import Json Repair.

Lemma repair_retry_payload_witness :
  let plan := {| scene_name := "S"; previous_code := None; manim_error := None;
                 manim_video_missing := None; other_fields := [] |} in
  let cg := fun (a : nat) (_ : ScenePlan) =>
              JObj [("manim_code", JStr (if a =? 1 then "bad" else "good"))] in
  let rd := fun (a : nat) (_ : string) (_ : string) =>
              if a =? 1 then {| output := ""; errors := "Traceback"; videoPath := None; success := false |}
              else {| output := "done"; errors := ""; videoPath := Some "/v.mp4"; success := true |} in
  (exists rest,
     fst (rl_go "/scripts" cg rd 3 3 0 plan None initial_render) =
     List.app [EGen 1 plan; EWrite "/scripts/S.py" "bad"; ERender "/scripts/S.py" "S";
               ESleep 1000;
               EGen 2 (correction plan "bad" (rd 1 "/scripts/S.py" "S"))] rest) /\
  manim_error (correction plan "bad" (rd 1 "/scripts/S.py" "S")) = Some "Traceback" /\
  (exists R, snd (generateUntilNoManimErrors "/scripts" cg rd plan 3) = Returned R /\
             res_attempts R = 2).
Proof.
  intros plan cg rd.
  pose proof (repair_retry_payload "/scripts" cg rd) as [H1 H2].
  split; [|split].
  - apply (H1 3 1 0 plan None initial_render "bad"); reflexivity.
  - reflexivity.
  - apply (H2 3 plan "bad" "good"); [lia|reflexivity..].
Defined.

Lemma repair_exhausted_after_three_witness :
  let plan := {| scene_name := "S"; previous_code := None; manim_error := None;
                 manim_video_missing := None; other_fields := [] |} in
  let cg := fun (_ : nat) (_ : ScenePlan) => JObj [("manim_code", JStr "c")] in
  let rd := fun (_ : nat) (_ : string) (_ : string) =>
              {| output := "o"; errors := "E"; videoPath := None; success := true |} in
  (forall a p, exists src, get (cg a p) "manim_code" = Some (JStr src) /\ JS.truthy src = true) /\
  (forall a fp s, attempt_ok (rd a fp s) = false) /\
  (count_gen (fst (generateUntilNoManimErrors "/scripts" cg rd plan 3)) = 3 /\
   exists p R,
    let r := rd 3 (file_path "/scripts" p) (scene_name p) in
    snd (generateUntilNoManimErrors "/scripts" cg rd plan 3) = Returned R /\
    res_attempts R = 3 /\ res_manimCode R = Some (cg 3 p) /\
    res_output R = output r /\ res_errors R = errors r /\ res_filePath R = None /\
    (videoPath r = None -> res_videoPath R = None)).
Proof.
  intros plan cg rd.
  assert (Hc : forall a p, exists src, get (cg a p) "manim_code" = Some (JStr src) /\
                                       JS.truthy src = true)
    by (intros; exists "c"; split; reflexivity).
  assert (Hf : forall a fp s, attempt_ok (rd a fp s) = false) by (intros; reflexivity).
  split; [exact Hc|split; [exact Hf|]].
  exact (repair_exhausted_after_three "/scripts" cg rd plan Hc Hf).
Defined.

End RepairClaims2Witnesses.


(** ** The video search *)

Section SearchProofs.
Import Search.

(** *** Tier 1 keeps the last matching line *)

Lemma detect_fold (lines : list string) (acc : option string) :
  (Forall (fun l => line_hit l = None) lines /\ fold_left detect_step lines acc = acc) \/
  (exists pre line post d,
      lines = List.app pre (line :: post) /\ line_hit line = Some d /\
      Forall (fun l => line_hit l = None) post /\
      fold_left detect_step lines acc = Some d).
Proof.
  induction lines as [|x l IH] using rev_ind.
  - left; split; [constructor|reflexivity].
  - rewrite fold_left_app; cbn [fold_left].
    set (F := fold_left detect_step l acc).
    change (detect_step F x) with (match line_hit x with Some m => Some m | None => F end).
    destruct (line_hit x) as [m|] eqn:Hx.
    + right; exists l, x, [], m.
      split; [reflexivity|split; [exact Hx|split; [apply Forall_nil|reflexivity]]].
    + destruct IH as [(Hall & Heq) | (pre & line & post & d & Hl & Hh & Hp & Heq)].
      * left; split; [apply Forall_app; split; [exact Hall|apply Forall_cons; [exact Hx|apply Forall_nil]]|exact Heq].
      * right; exists pre, line, (List.app post [x]), d.
        rewrite Hl, <- app_assoc.
        split; [reflexivity|split; [exact Hh|split; [|exact Heq]]].
        apply Forall_app; split; [exact Hp|apply Forall_cons; [exact Hx|apply Forall_nil]].
Qed.

(** *** Tier 2 picks a newest candidate *)

Lemma newest_fold_spec (fs : fsys) (l : list path) :
  forall acc : option path * Z,
  let res := fold_left (newest_step fs) l acc in
  (snd acc <= snd res)%Z /\
  (forall q m, In q l -> mtime_of fs q = Some m -> (m <= snd res)%Z) /\
  (res = acc \/ exists f, fst res = Some f /\ In f l /\ mtime_of fs f = Some (snd res)).
Proof.
  induction l as [|x l IH]; intros acc res.
  - subst res; simpl; split; [lia|split; [intros; contradiction|left; reflexivity]].
  - subst res; cbn [fold_left].
    destruct (IH (newest_step fs acc x)) as (Hmono & Hmax & Hwho).
    set (res := fold_left (newest_step fs) l (newest_step fs acc x)) in *.
    assert (Hstep : (snd acc <= snd (newest_step fs acc x))%Z /\
                    (forall m, mtime_of fs x = Some m -> (m <= snd (newest_step fs acc x))%Z) /\
                    (newest_step fs acc x = acc \/
                     (fst (newest_step fs acc x) = Some x /\
                      mtime_of fs x = Some (snd (newest_step fs acc x))))).
    { unfold newest_step.
      destruct (mtime_of fs x) as [mx|] eqn:Hx.
      - destruct (snd acc <? mx)%Z eqn:Hlt.
        + apply Z.ltb_lt in Hlt; simpl; split; [lia|split].
          * intros m Hm; inversion Hm; lia.
          * right; split; reflexivity.
        + apply Z.ltb_ge in Hlt; split; [lia|split].
          * intros m Hm; inversion Hm; subst; lia.
          * left; reflexivity.
      - split; [lia|split; [discriminate|left; reflexivity]]. }
    destruct Hstep as (Hs1 & Hs2 & Hs3).
    split; [lia|split].
    + intros q m [<-|Hq] Hm.
      * specialize (Hs2 m Hm); lia.
      * exact (Hmax q m Hq Hm).
    + destruct Hwho as [Hr|(f & Hf & Hin & Hmf)].
      * destruct Hs3 as [Ha|(Hx1 & Hx2)].
        -- left; rewrite Hr, Ha; reflexivity.
        -- right; exists x; rewrite Hr; split; [exact Hx1|split; [left; reflexivity|exact Hx2]].
      * right; exists f; split; [exact Hf|split; [right; exact Hin|exact Hmf]].
Qed.

Lemma newest_spec (fs : fsys) (cands : list path) (p : path) :
  newest fs cands = Some p ->
  In p cands /\ exists m, mtime_of fs p = Some m /\
    forall q m', In q cands -> mtime_of fs q = Some m' -> (m' <= m)%Z.
Proof.
  unfold newest; intros H.
  destruct (newest_fold_spec fs cands (None, 0%Z)) as (_ & Hmax & [Hr|(f & Hf & Hin & Hm)]).
  - rewrite Hr in H; discriminate.
  - rewrite H in Hf; inversion Hf; subst f.
    split; [exact Hin|eexists; split; [exact Hm|exact Hmax]].
Qed.

Lemma newest_positive (fs : fsys) (cands : list path) :
  (exists q m, In q cands /\ mtime_of fs q = Some m /\ (0 < m)%Z) ->
  exists p, newest fs cands = Some p.
Proof.
  intros (q & m & Hq & Hm & Hpos); unfold newest.
  destruct (newest_fold_spec fs cands (None, 0%Z)) as (_ & Hmax & [Hr|(f & Hf & _ & _)]).
  - specialize (Hmax q m Hq Hm); rewrite Hr in Hmax; simpl in Hmax; lia.
  - exists f; exact Hf.
Qed.

(** *** Tier 3 takes the head of the newest-first sort *)

Lemma insert_desc_in (x z : path * Z) (l : list (path * Z)) :
  In z (insert_desc x l) -> z = x \/ In z l.
Proof.
  induction l as [|y ys IH]; simpl.
  - intros [H|[]]; left; symmetry; exact H.
  - destruct (snd x <? snd y)%Z.
    + intros [H|H]; [right; left; exact H|].
      destruct (IH H) as [H'|H']; [left; exact H'|right; right; exact H'].
    + intros [H|[H|H]]; [left; symmetry; exact H|right; left; exact H|right; right; exact H].
Qed.

Lemma sort_desc_in (z : path * Z) (l : list (path * Z)) :
  In z (sort_desc l) -> In z l.
Proof.
  induction l as [|x xs IH]; simpl; [tauto|].
  intros H; destruct (insert_desc_in x z _ H) as [H'|H']; [left; symmetry; exact H'|right; exact (IH H')].
Qed.

Lemma sort_desc_head (l : list (path * Z)) :
  match sort_desc l with
  | [] => l = []
  | h :: _ => In h l /\ forall y, In y l -> (snd y <= snd h)%Z
  end.
Proof.
  induction l as [|x xs IH]; simpl; [reflexivity|].
  destruct (sort_desc xs) as [|h t] eqn:Hs.
  - subst xs; simpl; split; [left; reflexivity|intros y [<-|[]]; lia].
  - destruct IH as (Hin & Hmax); cbn [insert_desc].
    destruct (snd x <? snd h)%Z eqn:Hlt.
    + apply Z.ltb_lt in Hlt; split; [right; exact Hin|].
      intros y [<-|Hy]; [lia|exact (Hmax y Hy)].
    + apply Z.ltb_ge in Hlt; split; [left; reflexivity|].
      intros y [<-|Hy]; [lia|specialize (Hmax y Hy); lia].
Qed.

End SearchProofs.

Section SearchClaims.
Import Search.

(** C3 (as amended): the tier-1 candidate is the quoted .mp4 path of the
    last stdout line carrying ".mp4", a ready marker and a quoted .mp4
    path; when that path exists it is the result whatever tiers 2 and 3
    would find.  Otherwise the result is tier 2's ([findLatestMp4]) when it
    finds one, and tier 3's only when tier 2 finds none.  Tier 2 returns a
    candidate with the latest mtime, and does return one when the media
    root is a directory and some candidate has a positive mtime; tier 3
    returns a found .mp4 with the latest mtime, and returns one whenever it
    found any. *)
Theorem select_video_tiers (fs : fsys) (cwd scriptsPath : path) (sceneName output : string) :
  let mediaRoot := media_root scriptsPath in
  let cands := tier2_candidates fs mediaRoot sceneName in
  (forall d, detected_video_path output = Some d ->
     exists pre line post,
       split_on newline output = List.app pre (line :: post) /\
       line_hit line = Some d /\ Forall (fun l => line_hit l = None) post) /\
  (forall d, detected_video_path output = Some d -> exists_path fs (to_path cwd d) = true ->
     select_video fs cwd scriptsPath sceneName output = Some d) /\
  (tier1 fs cwd output = None ->
     select_video fs cwd scriptsPath sceneName output =
     match findLatestMp4 fs mediaRoot sceneName with
     | Some p => Some (path_string p)
     | None => option_map path_string (tier3 fs scriptsPath)
     end) /\
  (forall p, findLatestMp4 fs mediaRoot sceneName = Some p ->
     In p cands /\ exists m, mtime_of fs p = Some m /\
       forall q m', In q cands -> mtime_of fs q = Some m' -> (m' <= m)%Z) /\
  (is_directory fs mediaRoot = true ->
     (exists q m, In q cands /\ mtime_of fs q = Some m /\ (0 < m)%Z) ->
     exists p, findLatestMp4 fs mediaRoot sceneName = Some p) /\
  (forall p, tier3 fs scriptsPath = Some p ->
     exists m, In (p, m) (searchDir fs scriptsPath) /\
       forall q m', In (q, m') (searchDir fs scriptsPath) -> (m' <= m)%Z) /\
  (searchDir fs scriptsPath <> [] -> exists p, tier3 fs scriptsPath = Some p).
Proof.
  intros mediaRoot cands.
  split; [|split; [|split; [|split; [|split; [|split]]]]].
  - intros d Hd; unfold detected_video_path in Hd.
    destruct (detect_fold (split_on newline output) None)
      as [(_ & Heq)|(pre & line & post & d' & Hl & Hh & Hp & Heq)].
    + rewrite Heq in Hd; discriminate.
    + rewrite Heq in Hd; inversion Hd; subst d'.
      exists pre, line, post; split; [exact Hl|split; [exact Hh|exact Hp]].
  - intros d Hd He; unfold select_video, tier1; rewrite Hd, He; reflexivity.
  - intros H; unfold select_video; rewrite H; reflexivity.
  - intros p Hp; unfold findLatestMp4 in Hp.
    destruct (negb (is_directory fs mediaRoot)); [discriminate|].
    fold cands in Hp; destruct cands as [|c cs] eqn:Hc; [discriminate|].
    rewrite <- Hc in Hp |- *; exact (newest_spec fs _ p Hp).
  - intros Hdir Hpos; unfold findLatestMp4; rewrite Hdir; cbn [negb].
    fold cands; destruct (newest_positive fs cands Hpos) as (p & Hp).
    destruct cands as [|c cs] eqn:Hc.
    + destruct Hpos as (q & m & [] & _).
    + exists p; exact Hp.
  - intros p Hp; unfold tier3 in Hp.
    pose proof (sort_desc_head (searchDir fs scriptsPath)) as Hh.
    destruct (sort_desc (searchDir fs scriptsPath)) as [|[p' m] t]; [discriminate|].
    inversion Hp; subst p'.
    destruct Hh as (Hin & Hmax); exists m; split; [exact Hin|].
    intros q m' Hq; exact (Hmax (q, m') Hq).
  - intros Hne; unfold tier3.
    pose proof (sort_desc_head (searchDir fs scriptsPath)) as Hh.
    destruct (sort_desc (searchDir fs scriptsPath)) as [|[p' m] t].
    + contradiction.
    + exists p'; reflexivity.
Qed.

Lemma select_video_tiers_witness :
  detected_video_path demo_output = Some "/tmp/gone.mp4" /\
  tier1 demo_fs [] demo_output = None /\
  select_video demo_fs [] ["scripts"] "S" demo_output =
    Some "/scripts/media/videos/S/480p15/S.mp4" /\
  (exists p, findLatestMp4 demo_fs (media_root ["scripts"]) "S" = Some p).
Proof.
  pose proof (select_video_tiers demo_fs [] ["scripts"] "S" demo_output)
    as (_ & _ & H3 & _ & H5 & _).
  split; [vm_compute; reflexivity|].
  split; [vm_compute; reflexivity|].
  split.
  - rewrite H3 by (vm_compute; reflexivity); vm_compute; reflexivity.
  - apply H5; [vm_compute; reflexivity|].
    exists ["scripts"; "media"; "videos"; "S"; "480p15"; "S.mp4"], 50%Z.
    split; [vm_compute; left; reflexivity|split; [reflexivity|lia]].
Defined.

(** C3, counterexample: the first ready line names "/old/a.mp4", which
    exists, but the last ready line names a missing file, so tier 1 yields
    nothing and the tier-2 file is returned instead of "/old/a.mp4". *)
Example ready_path_not_preferred :
  line_hit "File ready at '/old/a.mp4'" = Some "/old/a.mp4" /\
  exists_path demo_fs (to_path [] "/old/a.mp4") = true /\
  select_video demo_fs [] ["scripts"] "S" demo_output =
    Some "/scripts/media/videos/S/480p15/S.mp4".
Proof. vm_compute; split; [reflexivity|split; reflexivity]. Qed.

End SearchClaims.

(** ** Durations and audio reconciliation *)

Section AudioProofs.
Import Audio.

(** [round_double] always gives a number, never NaN. *)
Lemma round_double_not_nan (q : Q) : round_double q <> NNaN.
Proof.
  unfold round_double; cbv zeta.
  destruct (Qnum q =? 0)%Z; [discriminate|].
  match goal with |- (if ?c then _ else _) <> _ => destruct c end; discriminate.
Qed.

(** The length [createSilentAudio] receives from the branch without
    audio, [videoDur || 1], before [toFixed(2)]. *)
Lemma silent_duration_fin (v : Q) :
  toFixed2 (num_max half (num_or (num_or (NFin v) (NFin 1)) (NFin 1))) =
  toFixed2 (NFin (if Qeq_bool v 0 then 1 else if Qle_bool v (1 # 2) then 1 # 2 else v)).
Proof.
  change (num_or (NFin v) (NFin 1)) with (if Qeq_bool v 0 then NFin 1 else NFin v).
  destruct (Qeq_bool v 0) eqn:E0; [reflexivity|].
  change (num_or (NFin v) (NFin 1)) with (if Qeq_bool v 0 then NFin 1 else NFin v).
  rewrite E0.
  change (num_max half (NFin v)) with (if negb (Qle_bool v (1 # 2)) then NFin v else half).
  destruct (Qle_bool v (1 # 2)); reflexivity.
Qed.

(** In the padding branch [Math.max(0.5, Number(diff) || 1)] is [diff],
    which is already [Math.max(0.5, deficit)]. *)
Lemma pad_duration (x : jsnum) :
  x <> NNaN -> num_max half (num_or (num_max half x) (NFin 1)) = num_max half x.
Proof.
  intros Hx; destruct x as [q|[]|]; [|reflexivity|reflexivity|contradiction].
  change (num_max half (NFin q)) with (if negb (Qle_bool q (1 # 2)) then NFin q else half).
  destruct (Qle_bool q (1 # 2)) eqn:E1; cbn [negb]; [reflexivity|].
  change (num_or (NFin q) (NFin 1)) with (if Qeq_bool q 0 then NFin 1 else NFin q).
  destruct (Qeq_bool q 0) eqn:E0.
  - apply Qeq_bool_iff in E0.
    assert (H : Qle_bool q (1 # 2) = true) by (apply Qle_bool_iff; lra).
    congruence.
  - change (num_max half (NFin q)) with (if negb (Qle_bool q (1 # 2)) then NFin q else half).
    rewrite E1; reflexivity.
Qed.

End AudioProofs.

Section AudioClaims.
Import Audio.
Variable exists_file : string -> bool.
Variable probe : string -> probe_outcome.
Variable ffmpeg_ok : cmd -> bool.
Variable now : string.

(** C8: with [ffmpeg] succeeding and finite probed durations [v] (video)
    and [d] (audio), [padOrTrimAudioToMatch] creates the output directory,
    probes, and then:
    - with no audio file: writes [silent_<now>.m4a] of length
      [v.toFixed(2)], at least "0.50", and "1.00" when the video probes to 0;
    - when [d > v + 0.05], the sum taken in double precision: writes
      [audio_trim_<now>.m4a], the audio cut at [v.toFixed(2)];
    - otherwise, when [d < v - 0.05] in double precision: writes
      [pad_silent_<now>.m4a] of length [Math.max(0.5, v - d).toFixed(2)]
      and then [audio_padded_<now>.m4a], the audio followed by that silence;
    - otherwise: spawns no [ffmpeg] and returns the audio path.
    Every file written is a fresh name in [outputDir]. *)
Theorem padOrTrim_cases (vp od : string) (ap : option string) (v : Q) :
  (forall c, ffmpeg_ok c = true) ->
  getMediaDuration (probe vp) = NFin v ->
  (audio_present exists_file ap = false ->
   let out := join od ("silent_" ++ now ++ ".m4a") in
   padOrTrimAudioToMatch exists_file probe ffmpeg_ok now vp ap od =
   ([Mkdir od; Ffprobe vp;
     FfmpegSilent (toFixed2 (NFin (if Qeq_bool v 0 then 1 else
                                   if Qle_bool v (1 # 2) then 1 # 2 else v))) out],
    Ok out)) /\
  (forall (a : string) (d : Q),
   ap = Some a -> audio_present exists_file ap = true ->
   getMediaDuration (probe a) = NFin d ->
   (num_lt (num_add (NFin v) eps) (NFin d) = true ->
    let out := join od ("audio_trim_" ++ now ++ ".m4a") in
    padOrTrimAudioToMatch exists_file probe ffmpeg_ok now vp ap od =
    ([Mkdir od; Ffprobe vp; Ffprobe a; FfmpegTrim a (toFixed2 (NFin v)) out], Ok out)) /\
   (num_lt (num_add (NFin v) eps) (NFin d) = false ->
    num_lt (NFin d) (num_sub (NFin v) eps) = true ->
    let silentPart := join od ("pad_silent_" ++ now ++ ".m4a") in
    let out := join od ("audio_padded_" ++ now ++ ".m4a") in
    padOrTrimAudioToMatch exists_file probe ffmpeg_ok now vp ap od =
    ([Mkdir od; Ffprobe vp; Ffprobe a;
      FfmpegSilent (toFixed2 (num_max half (num_sub (NFin v) (NFin d)))) silentPart;
      FfmpegConcat a silentPart out],
     Ok out)) /\
   (num_lt (num_add (NFin v) eps) (NFin d) = false ->
    num_lt (NFin d) (num_sub (NFin v) eps) = false ->
    padOrTrimAudioToMatch exists_file probe ffmpeg_ok now vp ap od =
    ([Mkdir od; Ffprobe vp; Ffprobe a], Ok a))).
Proof.
  intros Hff Hv; split.
  - intros Ha out.
    unfold padOrTrimAudioToMatch, media_duration, createSilentAudio, run_ffmpeg.
    destruct ap as [a|]; [rewrite Ha|]; rewrite Hv; cbn [bind emit ret];
      rewrite Hff, silent_duration_fin; reflexivity.
  - intros a d -> Ha Hd.
    unfold padOrTrimAudioToMatch, media_duration; rewrite Ha, Hv, Hd; cbn [bind emit ret].
    split; [|split].
    + intros Ht; rewrite Ht.
      unfold run_ffmpeg; cbn [bind emit ret]; rewrite Hff; reflexivity.
    + intros Ht Hp; rewrite Ht, Hp.
      unfold createSilentAudio, run_ffmpeg; cbn [bind emit ret]; rewrite !Hff.
      rewrite pad_duration by apply round_double_not_nan; reflexivity.
    + intros Ht Hp; rewrite Ht, Hp; reflexivity.
Qed.

(** C9: [mergeVideoAndAudio] checks only the video: a missing, empty or
    nonexistent video path rejects with "Video file not found" before any
    directory is made or subprocess spawned; a present video with no
    usable audio goes on, probes the video, generates silence and spawns
    the merge. *)
Theorem merge_checks_video_only (od : string) :
  (forall ap, mergeVideoAndAudio exists_file probe ffmpeg_ok now od None ap =
              ([], Err "Video file not found: undefined")) /\
  (forall v ap, (JS.truthy v && exists_file v) = false ->
   mergeVideoAndAudio exists_file probe ffmpeg_ok now od (Some v) ap =
   ([], Err ("Video file not found: " ++ v))) /\
  (forall v ap, (JS.truthy v && exists_file v) = true ->
   audio_present exists_file ap = false ->
   (forall c, ffmpeg_ok c = true) ->
   let silent := join od ("silent_" ++ now ++ ".m4a") in
   let outFile := join od ("final_" ++ now ++ ".mp4") in
   exists dur,
   mergeVideoAndAudio exists_file probe ffmpeg_ok now od (Some v) ap =
   ([Mkdir od; Mkdir od; Mkdir od; Ffprobe v; FfmpegSilent dur silent;
     FfmpegMerge v silent outFile], Ok outFile)).
Proof.
  split; [|split].
  - intros ap; reflexivity.
  - intros v ap H; unfold mergeVideoAndAudio; rewrite H; reflexivity.
  - intros v ap Hv Ha Hff silent outFile.
    eexists.
    unfold mergeVideoAndAudio, ensureAudioForMerge, padOrTrimAudioToMatch, media_duration,
      createSilentAudio, run_ffmpeg.
    rewrite Hv; cbn [negb].
    destruct ap as [a|]; [rewrite Ha|]; do 3 (cbn [bind emit ret]; rewrite ?Hff); reflexivity.
Qed.

(** C10: [getMediaDuration] never rejects and never yields NaN: a spawn
    error, a non-zero (or signal) exit, or output that does not parse gives
    0; otherwise it is [parseFloat] of the trimmed output, whatever its
    sign or size. *)
Theorem getMediaDuration_total :
  getMediaDuration ProbeSpawnError = NFin 0 /\
  (forall c out, c <> Some 0%Z -> getMediaDuration (ProbeExit c out) = NFin 0) /\
  (forall out, is_nan (parseFloat (JS.trim out)) = true ->
               getMediaDuration (ProbeExit (Some 0%Z) out) = NFin 0) /\
  (forall out, is_nan (parseFloat (JS.trim out)) = false ->
               getMediaDuration (ProbeExit (Some 0%Z) out) = parseFloat (JS.trim out)) /\
  (forall o, getMediaDuration o <> NNaN).
Proof.
  split; [reflexivity|split; [|split; [|split]]].
  - intros [[|p|p]|] out H; [congruence|reflexivity..].
  - intros out H; cbn [getMediaDuration]; rewrite H; reflexivity.
  - intros out H; cbn [getMediaDuration]; rewrite H; reflexivity.
  - intros [|[[|p|p]|] out]; cbn [getMediaDuration]; try discriminate.
    destruct (parseFloat (JS.trim out)) eqn:E; cbn [is_nan]; discriminate.
Qed.

End AudioClaims.

Section AudioWitnesses.
Import Audio.

Lemma padOrTrim_cases_witness :
  let ex := fun p => String.eqb p "/a.m4a" in
  let pr := fun p => if String.eqb p "/v.mp4" then ProbeExit (Some 0%Z) "4.0"
                     else ProbeExit (Some 0%Z) "2.5" in
  (forall c, (fun _ : cmd => true) c = true) /\
  getMediaDuration (pr "/v.mp4") = NFin (4 # 1) /\
  getMediaDuration (pr "/a.m4a") = NFin (5 # 2) /\
  num_lt (num_add (NFin (4 # 1)) eps) (NFin (5 # 2)) = false /\
  num_lt (NFin (5 # 2)) (num_sub (NFin (4 # 1)) eps) = true /\
  padOrTrimAudioToMatch ex pr (fun _ => true) "T" "/v.mp4" (Some "/a.m4a") "/out" =
  ([Mkdir "/out"; Ffprobe "/v.mp4"; Ffprobe "/a.m4a";
    FfmpegSilent (toFixed2 (num_max half (num_sub (NFin (4 # 1)) (NFin (5 # 2)))))
      "/out/pad_silent_T.m4a";
    FfmpegConcat "/a.m4a" "/out/pad_silent_T.m4a" "/out/audio_padded_T.m4a"],
   Ok "/out/audio_padded_T.m4a").
Proof.
  intros ex pr.
  assert (Hff : forall c, (fun _ : cmd => true) c = true) by reflexivity.
  assert (Hv : getMediaDuration (pr "/v.mp4") = NFin (4 # 1)) by (vm_compute; reflexivity).
  assert (Hd : getMediaDuration (pr "/a.m4a") = NFin (5 # 2)) by (vm_compute; reflexivity).
  assert (Ht : num_lt (num_add (NFin (4 # 1)) eps) (NFin (5 # 2)) = false)
    by (vm_compute; reflexivity).
  assert (Hp : num_lt (NFin (5 # 2)) (num_sub (NFin (4 # 1)) eps) = true)
    by (vm_compute; reflexivity).
  split; [exact Hff|split; [exact Hv|split; [exact Hd|split; [exact Ht|split; [exact Hp|]]]]].
  destruct (padOrTrim_cases ex pr (fun _ => true) "T" "/v.mp4" "/out" (Some "/a.m4a")
              (4 # 1) Hff Hv) as [_ H].
  destruct (H "/a.m4a" (5 # 2) eq_refl eq_refl Hd) as (_ & Hpad & _).
  exact (Hpad Ht Hp).
Defined.

(** Against C8:
    - with no audio and a video that probes to 0 the silence is "1.00" s,
      not [max(0, 0.5)] = 0.5 s;
    - a trim cuts at the video length rounded to hundredths ("3.46" for a
      3.456 s video), not at that length exactly, and the rounding is that
      of the binary value (a 1.005 s video gives "1.00");
    - the 0.05 s tolerance is tested in double precision: for a 0.12 s
      video, [0.12 + 0.05] is 0.16999999999999998, so a 0.17 s audio, 0.05 s
      longer, is trimmed into a new file rather than returned unchanged. *)
Lemma padOrTrim_silence_and_trim_rounded :
  padOrTrimAudioToMatch (fun _ => false) (fun _ => ProbeSpawnError) (fun _ => true)
    "T" "/v.mp4" None "/out" =
  ([Mkdir "/out"; Ffprobe "/v.mp4"; FfmpegSilent "1.00" "/out/silent_T.m4a"],
   Ok "/out/silent_T.m4a") /\
  padOrTrimAudioToMatch (fun p => String.eqb p "/a.m4a")
    (fun p => if String.eqb p "/v.mp4" then ProbeExit (Some 0%Z) "3.456"
              else ProbeExit (Some 0%Z) "5")
    (fun _ => true) "T" "/v.mp4" (Some "/a.m4a") "/out" =
  ([Mkdir "/out"; Ffprobe "/v.mp4"; Ffprobe "/a.m4a";
    FfmpegTrim "/a.m4a" "3.46" "/out/audio_trim_T.m4a"],
   Ok "/out/audio_trim_T.m4a") /\
  padOrTrimAudioToMatch (fun p => String.eqb p "/a.m4a")
    (fun p => if String.eqb p "/v.mp4" then ProbeExit (Some 0%Z) "1.005"
              else ProbeExit (Some 0%Z) "5")
    (fun _ => true) "T" "/v.mp4" (Some "/a.m4a") "/out" =
  ([Mkdir "/out"; Ffprobe "/v.mp4"; Ffprobe "/a.m4a";
    FfmpegTrim "/a.m4a" "1.00" "/out/audio_trim_T.m4a"],
   Ok "/out/audio_trim_T.m4a") /\
  padOrTrimAudioToMatch (fun p => String.eqb p "/a.m4a")
    (fun p => if String.eqb p "/v.mp4" then ProbeExit (Some 0%Z) "0.12"
              else ProbeExit (Some 0%Z) "0.17")
    (fun _ => true) "T" "/v.mp4" (Some "/a.m4a") "/out" =
  ([Mkdir "/out"; Ffprobe "/v.mp4"; Ffprobe "/a.m4a";
    FfmpegTrim "/a.m4a" "0.12" "/out/audio_trim_T.m4a"],
   Ok "/out/audio_trim_T.m4a") /\
  ((17 # 100) - (12 # 100) == 5 # 100)%Q.
Proof.
  split; [vm_compute; reflexivity|].
  split; [vm_compute; reflexivity|].
  split; [vm_compute; reflexivity|].
  split; [vm_compute; reflexivity|].
  reflexivity.
Qed.

(** Against C9: a present video with an audio path naming no file is not
    rejected: silence is generated and [ffmpeg] spawned, and the merge
    resolves. *)
Lemma merge_missing_audio_still_spawns :
  let r := mergeVideoAndAudio (fun p => String.eqb p "/v.mp4")
             (fun _ => ProbeExit (Some 0%Z) "4.0") (fun _ => true) "T" "/out"
             (Some "/v.mp4") (Some "/missing.mp3") in
  r = ([Mkdir "/out"; Mkdir "/out"; Mkdir "/out"; Ffprobe "/v.mp4";
        FfmpegSilent "4.00" "/out/silent_T.m4a";
        FfmpegMerge "/v.mp4" "/out/silent_T.m4a" "/out/final_T.mp4"],
       Ok "/out/final_T.mp4") /\
  existsb is_subprocess (fst r) = true.
Proof. vm_compute; split; reflexivity. Qed.

(** Against C10: [ffprobe] output that parses to a negative number or to
    Infinity is returned as such. *)
Lemma getMediaDuration_negative_or_infinite :
  (exists q, getMediaDuration (ProbeExit (Some 0%Z) "-1.5") = NFin q /\ (q < 0)%Q) /\
  getMediaDuration (ProbeExit (Some 0%Z) "Infinity") = NInf false.
Proof.
  split; [|vm_compute; reflexivity].
  exists ((-3) # 2); split; [vm_compute; reflexivity|reflexivity].
Qed.

End AudioWitnesses.

(** ** Removal of temporary audio files *)

Section CleanupProofs.
Import Cleanup.

Lemma remove_name_in (x n : string) (E : list string) :
  In n (remove_name x E) <-> In n E /\ n <> x.
Proof.
  induction E as [|e E IH]; cbn [remove_name In]; [tauto|].
  destruct (String.eqb x e) eqn:Ex.
  - apply String.eqb_eq in Ex; subst e; rewrite IH; split; [tauto|].
    intros [[H|H] Hn]; [congruence|tauto].
  - apply String.eqb_neq in Ex; cbn [In]; rewrite IH; split.
    + intros [H|H]; [subst; split; [left; reflexivity|congruence]|tauto].
    + tauto.
Qed.

Lemma mem_in (n : string) (E : list string) : mem n E = true <-> In n E.
Proof.
  unfold mem; rewrite existsb_exists; split.
  - intros (x & Hx & He); apply String.eqb_eq in He; subst; exact Hx.
  - intros H; exists n; split; [exact H|apply String.eqb_refl].
Qed.

(** What one pass of the loop keeps and unlinks, for any [unlink]
    outcome. *)
Lemma cleanup_fold_inv (unlink_ok : string -> bool) (dir : string) (l : list string) :
  forall E U,
  let '(E', U') := fold_left (cleanup_step unlink_ok dir) l (E, U) in
  (forall n, In n E -> is_temp n = false -> In n E') /\
  (forall n, In n E' -> In n E) /\
  (forall p, In p U' -> In p U \/ exists n, p = Audio.join dir n /\ In n l /\ is_temp n = true).
Proof.
  induction l as [|x l IH]; intros E U; cbn [fold_left].
  - split; [tauto|split; [tauto|intros p Hp; left; exact Hp]].
  - unfold cleanup_step at 2.
    destruct (is_temp x) eqn:Ht; [destruct (mem x E) eqn:Hm|].
    + set (E1 := if unlink_ok (Audio.join dir x) then remove_name x E else E).
      specialize (IH E1 (List.app U [Audio.join dir x])).
      destruct (fold_left (cleanup_step unlink_ok dir) l _) as [E' U'].
      destruct IH as (H1 & H2 & H3).
      assert (HE1 : forall n, In n E1 -> In n E).
      { intros n Hn; unfold E1 in Hn; destruct (unlink_ok _); [apply remove_name_in in Hn; tauto|exact Hn]. }
      split; [|split].
      * intros n Hn Hnt; apply H1; [|exact Hnt].
        unfold E1; destruct (unlink_ok _); [|exact Hn].
        apply remove_name_in; split; [exact Hn|intros ->; congruence].
      * intros n Hn; apply HE1, H2, Hn.
      * intros p Hp; destruct (H3 p Hp) as [Hu|(n & -> & Hn & Hnt)].
        -- apply in_app_or in Hu; destruct Hu as [Hu|[Hu|[]]]; [left; exact Hu|].
           right; exists x; split; [congruence|split; [left; reflexivity|exact Ht]].
        -- right; exists n; split; [reflexivity|split; [right; exact Hn|exact Hnt]].
    + specialize (IH E U); destruct (fold_left (cleanup_step unlink_ok dir) l _) as [E' U'].
      destruct IH as (H1 & H2 & H3); split; [exact H1|split; [exact H2|]].
      intros p Hp; destruct (H3 p Hp) as [Hu|(n & -> & Hn & Hnt)]; [left; exact Hu|].
      right; exists n; split; [reflexivity|split; [right; exact Hn|exact Hnt]].
    + specialize (IH E U); destruct (fold_left (cleanup_step unlink_ok dir) l _) as [E' U'].
      destruct IH as (H1 & H2 & H3); split; [exact H1|split; [exact H2|]].
      intros p Hp; destruct (H3 p Hp) as [Hu|(n & -> & Hn & Hnt)]; [left; exact Hu|].
      right; exists n; split; [reflexivity|split; [right; exact Hn|exact Hnt]].
Qed.

(** With every [unlink] succeeding, a pass removes exactly the temporary
    names it meets. *)
Lemma cleanup_fold_ok (unlink_ok : string -> bool) (dir : string) :
  (forall p, unlink_ok p = true) ->
  forall l E U,
  let '(E', U') := fold_left (cleanup_step unlink_ok dir) l (E, U) in
  forall n, In n E' <-> In n E /\ ~ (is_temp n = true /\ In n l).
Proof.
  intros Hok l; induction l as [|x l IH]; intros E U; cbn [fold_left].
  - intros n; cbn [In]; tauto.
  - unfold cleanup_step at 2.
    destruct (is_temp x) eqn:Ht; [destruct (mem x E) eqn:Hm|].
    + rewrite Hok.
      specialize (IH (remove_name x E) (List.app U [Audio.join dir x])).
      destruct (fold_left (cleanup_step unlink_ok dir) l _) as [E' U'].
      intros n; rewrite IH, remove_name_in; cbn [In]; split.
      * intros ((Hn & Hx) & Hnl); split; [exact Hn|intros (Hnt & [H|H]); [congruence|tauto]].
      * intros (Hn & Hnot); split; [split; [exact Hn|intros ->; apply Hnot; split; [exact Ht|left; reflexivity]]|].
        intros (Hnt & Hl); apply Hnot; split; [exact Hnt|right; exact Hl].
    + specialize (IH E U).
      destruct (fold_left (cleanup_step unlink_ok dir) l _) as [E' U'].
      intros n; rewrite IH; cbn [In]; split.
      * intros (Hn & Hnot); split; [exact Hn|intros (Hnt & [H|H]); [subst x|tauto]].
        apply mem_in in Hn; congruence.
      * intros (Hn & Hnot); split; [exact Hn|tauto].
    + specialize (IH E U).
      destruct (fold_left (cleanup_step unlink_ok dir) l _) as [E' U'].
      intros n; rewrite IH; cbn [In]; split.
      * intros (Hn & Hnot); split; [exact Hn|intros (Hnt & [H|H]); [subst x; congruence|tauto]].
      * intros (Hn & Hnot); split; [exact Hn|tauto].
Qed.

(** A pass over names none of which is temporary changes nothing. *)
Lemma cleanup_fold_none (unlink_ok : string -> bool) (dir : string) (l : list string) :
  Forall (fun n => is_temp n = false) l ->
  forall E U, fold_left (cleanup_step unlink_ok dir) l (E, U) = (E, U).
Proof.
  induction 1 as [|x l Hx Hl IH]; intros E U; [reflexivity|].
  cbn [fold_left]; unfold cleanup_step at 2; rewrite Hx; apply IH.
Qed.

End CleanupProofs.

Section CleanupExtras.
Import Cleanup.

(** Extra: [cleanupTempAudioFiles] never touches a file whose name matches
    none of the four temporary patterns: every such entry is still listed
    afterwards, nothing is added to the directory, and every path given to
    [unlink] is [join(dir, name)] for a listed name matching a pattern. *)
Theorem cleanup_only_temp (unlink_ok : string -> bool) (dir : string) (items : list string) :
  let '(after, unlinked) := cleanupTempAudioFiles unlink_ok dir (Some items) in
  exists entries, after = Some entries /\
  (forall n, In n items -> is_temp n = false -> In n entries) /\
  (forall n, In n entries -> In n items) /\
  (forall p, In p unlinked -> exists n, p = Audio.join dir n /\ In n items /\ is_temp n = true).
Proof.
  unfold cleanupTempAudioFiles.
  pose proof (cleanup_fold_inv unlink_ok dir items items []) as H.
  destruct (fold_left (cleanup_step unlink_ok dir) items (items, [])) as [E U].
  destruct H as (H1 & H2 & H3).
  exists E; split; [reflexivity|split; [exact H1|split; [exact H2|]]].
  intros p Hp; destruct (H3 p Hp) as [[]|Hn]; exact Hn.
Qed.

(** Extra: when every [unlink] succeeds, [cleanupTempAudioFiles] leaves in
    the directory exactly the entries matching none of the temporary
    patterns, and a second run then unlinks nothing. *)
Theorem cleanup_all_unlinked_idempotent (unlink_ok : string -> bool) (dir : string)
  (items : list string) :
  (forall p, unlink_ok p = true) ->
  let '(after, _) := cleanupTempAudioFiles unlink_ok dir (Some items) in
  exists entries, after = Some entries /\
  (forall n, In n entries <-> In n items /\ is_temp n = false) /\
  cleanupTempAudioFiles unlink_ok dir (Some entries) = (Some entries, []).
Proof.
  intros Hok; unfold cleanupTempAudioFiles at 1.
  pose proof (cleanup_fold_ok unlink_ok dir Hok items items []) as H.
  destruct (fold_left (cleanup_step unlink_ok dir) items (items, [])) as [E U].
  assert (HE : forall n, In n E <-> In n items /\ is_temp n = false).
  { intros n; rewrite H; split.
    - intros (Hn & Hnot); split; [exact Hn|destruct (is_temp n); [exfalso; tauto|reflexivity]].
    - intros (Hn & Hnt); split; [exact Hn|rewrite Hnt; intros ([=] & _)]. }
  exists E; split; [reflexivity|split; [exact HE|]].
  unfold cleanupTempAudioFiles; rewrite cleanup_fold_none; [reflexivity|].
  apply Forall_forall; intros n Hn; apply HE, Hn.
Qed.

End CleanupExtras.

Section CleanupWitnesses.
Import Cleanup.

Lemma cleanup_all_unlinked_idempotent_witness :
  (forall p, (fun _ : string => true) p = true) /\
  let '(after, _) := cleanupTempAudioFiles (fun _ => true) "out"
    (Some ["silent_1.mp3"; "final_1.mp4"; "audio_trim_2.mp3"]) in
  exists entries, after = Some entries /\
  (forall n, In n entries <-> In n ["silent_1.mp3"; "final_1.mp4"; "audio_trim_2.mp3"] /\ is_temp n = false) /\
  cleanupTempAudioFiles (fun _ => true) "out" (Some entries) = (Some entries, []).
Proof.
  split; [intros p; reflexivity|].
  apply (cleanup_all_unlinked_idempotent (fun _ => true)); intros p; reflexivity.
Defined.

End CleanupWitnesses.

(** ** Files written by the audio preparation and the merge *)

Section WrittenProofs.
Import Audio Cleanup.







End WrittenProofs.

(** ** [verifyAudioFile] *)

Section VerifyProofs.
Import Json Verify.

Ltac fallback_ok :=
  cbn; split; [reflexivity|split; [reflexivity|split; [discriminate|discriminate]]].

Lemma some_audio_true (l : list jsval) :
  some_audio l = Some true -> exists st, In st l /\ is_audio st = true.
Proof.
  induction l as [|st r IH]; cbn [some_audio]; [discriminate|].
  intros H; destruct st eqn:Est;
  try (destruct (is_audio _) eqn:Ha;
       [exists st; subst st; split; [left; reflexivity|exact Ha]
       |destruct (IH H) as (x & Hx & Hxa); exists x; split; [right; exact Hx|exact Hxa]]).
  discriminate.
Qed.

Lemma some_audio_no_null (l : list jsval) :
  Forall (fun st => st <> JNull) l -> some_audio l = Some (existsb is_audio l).
Proof.
  induction 1 as [|st r Hst Hr IH]; [reflexivity|].
  destruct st; [congruence|..];
  cbn [some_audio existsb]; destruct (is_audio _); cbn [orb]; [reflexivity|exact IH|reflexivity|exact IH|reflexivity|exact IH|reflexivity|exact IH|reflexivity|exact IH].
Qed.

Lemma is_audio_codec (st : jsval) :
  is_audio st = true -> get st "codec_type" = Some (JStr "audio").
Proof.
  unfold is_audio; destruct (get st "codec_type") as [[]|]; try discriminate.
  intros H; apply String.eqb_eq in H; subst; reflexivity.
Qed.

Lemma num_or_zero_not_nan (x : Audio.jsnum) : Audio.num_or x (Audio.NFin 0) <> Audio.NNaN.
Proof.
  destruct x as [q| |]; cbn [Audio.num_or]; try discriminate.
  destruct (Qeq_bool q 0); discriminate.
Qed.

(** Extra: [verifyAudioFile] rejects with [Audio file does not exist: ...],
    before any [stat] or [ffprobe], exactly when the path is missing, empty
    or not an existing file.  Otherwise it stats and probes the file and
    always fulfils with [exists: true], the file's size and a duration that
    is never NaN; [hasAudio] is true only when [ffprobe] exited with code 0
    and its parsed output has a [streams] array with an element whose
    [codec_type] is ["audio"]. *)
Theorem verify_outcomes number_to_string exists_file size_of probe_json (filePath : option string) :
  match filePath with
  | None => verifyAudioFile number_to_string exists_file size_of probe_json filePath =
            ([], Audio.Err "Audio file does not exist: undefined")
  | Some p =>
      if JS.truthy p && exists_file p then
        exists info,
        verifyAudioFile number_to_string exists_file size_of probe_json filePath =
          ([VStat p; VProbe p], Audio.Ok info) /\
        info_exists info = true /\ info_size info = size_of p /\
        info_duration info <> Audio.NNaN /\
        (info_hasAudio info = true ->
         exists out v l st, probe_json p = Audio.ProbeExit (Some 0%Z) out /\
           parse (if JS.truthy out then out else "{}") = Some v /\
           get v "streams" = Some (JArr l) /\ In st l /\
           get st "codec_type" = Some (JStr "audio"))
      else verifyAudioFile number_to_string exists_file size_of probe_json filePath =
           ([], Audio.Err ("Audio file does not exist: " ++ p))
  end.
Proof.
  destruct filePath as [p|]; [|reflexivity].
  unfold verifyAudioFile; destruct (JS.truthy p && exists_file p); [|reflexivity].
  eexists; split; [reflexivity|].
  unfold probe_info.
  destruct (probe_json p) as [|[[|c|c]|] out] eqn:Hp;
  try (cbn; split; [reflexivity|split; [reflexivity|split; [discriminate|discriminate]]]).
  destruct (parse (if JS.truthy out then out else "{}")) as [v|] eqn:Hv;
  [|cbn; split; [reflexivity|split; [reflexivity|split; [discriminate|discriminate]]]].
  assert (Hmain : forall l, or_default (get v "streams") (JArr []) = JArr l ->
    match some_audio l with
    | Some hasAudio =>
      info_exists
        {| info_exists := true; info_size := size_of p;
           info_duration := Audio.num_or (Audio.parseFloat (opt_to_string number_to_string
              (get (or_default (get v "format") (JObj [])) "duration"))) (Audio.NFin 0);
           info_hasAudio := hasAudio;
           info_extra := Some (get (or_default (get v "format") (JObj [])) "format_name", JArr l) |} = true /\
      info_size {| info_exists := true; info_size := size_of p;
           info_duration := Audio.num_or (Audio.parseFloat (opt_to_string number_to_string
              (get (or_default (get v "format") (JObj [])) "duration"))) (Audio.NFin 0);
           info_hasAudio := hasAudio;
           info_extra := Some (get (or_default (get v "format") (JObj [])) "format_name", JArr l) |} = size_of p /\
      Audio.num_or (Audio.parseFloat (opt_to_string number_to_string
              (get (or_default (get v "format") (JObj [])) "duration"))) (Audio.NFin 0) <> Audio.NNaN /\
      (hasAudio = true ->
         exists out' v' l st, Audio.ProbeExit (Some 0%Z) out = Audio.ProbeExit (Some 0%Z) out' /\
           parse (if JS.truthy out' then out' else "{}") = Some v' /\
           get v' "streams" = Some (JArr l) /\ In st l /\
           get st "codec_type" = Some (JStr "audio"))
    | None => True
    end).
  { intros l Hl; destruct (some_audio l) as [b|] eqn:Hs; [|exact I].
    split; [reflexivity|split; [reflexivity|split; [apply num_or_zero_not_nan|]]].
    intros ->; destruct (some_audio_true l Hs) as (st & Hst & Ha).
    destruct l as [|x r]; [contradiction|].
    exists out, v, (x :: r), st; split; [reflexivity|split; [exact Hv|split; [|split; [exact Hst|apply is_audio_codec, Ha]]]].
    unfold or_default in Hl; destruct (get v "streams") as [w|]; [|discriminate].
    destruct (Repair.truthy w); [congruence|discriminate]. }
  destruct v as [| | | | |] eqn:Ev; [fallback_ok|..];
  destruct (or_default (get _ "streams") (JArr [])) as [| | | |l'|] eqn:Hs; try fallback_ok;
  specialize (Hmain l' eq_refl); destruct (some_audio l'); [exact Hmain|fallback_ok|exact Hmain|fallback_ok
    |exact Hmain|fallback_ok|exact Hmain|fallback_ok|exact Hmain|fallback_ok].
Qed.

(** Extra: for an existing file whose [ffprobe] run exits 0 with a JSON
    object whose [streams] is an array with no [null] element and whose
    [format.duration] is a string [d], [verifyAudioFile] fulfils with
    [hasAudio] true exactly when some stream has [codec_type] ["audio"],
    [duration] the number [parseFloat(d)] (0 when that is NaN or 0), and the
    [format_name] and [streams] read from the output. *)
Theorem verify_wellformed_probe number_to_string exists_file size_of probe_json
  (p out : string) fs l fmt d :
  JS.truthy p = true -> exists_file p = true ->
  probe_json p = Audio.ProbeExit (Some 0%Z) out ->
  parse out = Some (JObj fs) ->
  get (JObj fs) "streams" = Some (JArr l) ->
  Forall (fun st => st <> JNull) l ->
  get (JObj fs) "format" = Some (JObj fmt) ->
  get (JObj fmt) "duration" = Some (JStr d) ->
  verifyAudioFile number_to_string exists_file size_of probe_json (Some p) =
  ([VStat p; VProbe p],
   Audio.Ok {| info_exists := true; info_size := size_of p;
               info_duration := Audio.num_or (Audio.parseFloat d) (Audio.NFin 0);
               info_hasAudio := existsb is_audio l;
               info_extra := Some (get (JObj fmt) "format_name", JArr l) |}).
Proof.
  intros Ht He Hp Hparse Hs Hl Hf Hd.
  unfold verifyAudioFile; rewrite Ht, He, Hp; cbn [andb].
  unfold probe_info.
  assert (Hout : JS.truthy out = true) by (destruct out; [discriminate|reflexivity]).
  rewrite Hout, Hparse; cbv zeta.
  unfold or_default at 1; rewrite Hs; cbn [Repair.truthy].
  unfold or_default; rewrite Hf; cbn [Repair.truthy].
  rewrite (some_audio_no_null l Hl).
  unfold opt_to_string; rewrite Hd; reflexivity.
Qed.

End VerifyProofs.

Section VerifyWitnesses.
Import Json Verify.

Lemma verify_wellformed_probe_witness :
  let out := "{" ++ dquote ++ "streams" ++ dquote ++ ":[{" ++ dquote ++ "codec_type" ++
    dquote ++ ":" ++ dquote ++ "audio" ++ dquote ++ "}]," ++ dquote ++ "format" ++ dquote ++
    ":{" ++ dquote ++ "duration" ++ dquote ++ ":" ++ dquote ++ "2.5" ++ dquote ++ "}}" in
  let fmt := [("duration", JStr "2.5")] in
  let l := [JObj [("codec_type", JStr "audio")]] in
  let fs := [("streams", JArr l); ("format", JObj fmt)] in
  parse out = Some (JObj fs) /\
  verifyAudioFile (fun _ => "") (fun _ => true) (fun _ => 7)
    (fun _ => Audio.ProbeExit (Some 0%Z) out) (Some "a.mp3") =
  ([VStat "a.mp3"; VProbe "a.mp3"],
   Audio.Ok {| info_exists := true; info_size := 7;
               info_duration := Audio.num_or (Audio.parseFloat "2.5") (Audio.NFin 0);
               info_hasAudio := existsb is_audio l;
               info_extra := Some (get (JObj fmt) "format_name", JArr l) |}).
Proof.
  intros out fmt l fs.
  assert (Hparse : parse out = Some (JObj fs)) by (vm_compute; reflexivity).
  split; [exact Hparse|].
  apply (verify_wellformed_probe (fun _ => "") (fun _ => true) (fun _ => 7)
           (fun _ => Audio.ProbeExit (Some 0%Z) out) "a.mp3" out fs l fmt "2.5");
  [reflexivity|reflexivity|reflexivity|exact Hparse|reflexivity| |reflexivity|reflexivity].
  apply Forall_cons; [discriminate|apply Forall_nil].
Defined.

End VerifyWitnesses.

(** ** The merge variants *)

Section MergeVariantsProofs.
Import Audio MergeVariants.

Variable exists_file : string -> bool.
Variable probe : string -> probe_outcome.
Variable ffmpeg_ok : cmd -> bool.
Variable final_ok : vcmd -> bool.
Variable fade_probe : string -> option Z * string.
Variable now : string.



Lemma merge_with_in (prefix od : string) (vp ap : option string) k (c : vcmd) :
  In c (fst (merge_with exists_file probe ffmpeg_ok now prefix od vp ap k)) ->
  (exists c0, c = Prep c0) \/
  exists v a, vp = Some v /\ In c (fst (k v a (join od (prefix ++ now ++ ".mp4")))).
Proof.
  unfold merge_with; destruct vp as [v|]; [|intros []].
  destruct (negb _); [intros []|].
  destruct (ensureAudioForMerge exists_file probe ffmpeg_ok now v ap od) as [cs [a|e]];
  [destruct (k v a _) as [cs' r'] eqn:Hk|]; cbn [fst]; intros Hin.
  - apply in_app_or in Hin; destruct Hin as [Hin|Hin].
    + apply in_map_iff in Hin; destruct Hin as (c0 & <- & _); left; exists c0; reflexivity.
    + right; exists v, a; rewrite Hk; split; [reflexivity|exact Hin].
  - apply in_map_iff in Hin; destruct Hin as (c0 & <- & _); left; exists c0; reflexivity.
Qed.

Lemma fade_out_start_nan (fadeOut : jsnum) : fade_out_start NNaN fadeOut = NNaN.
Proof. destruct fadeOut as [| [] |]; reflexivity. Qed.

Lemma fade_out_start_fin (d f : Q) :
  fade_out_start (NFin d) (NFin f) = num_max (NFin 0) (round_double (d - f)) /\
  num_lt (fade_out_start (NFin d) (NFin f)) (NFin 0) = false /\
  fade_out_start (NFin d) (NFin f) <> NNaN.
Proof.
  assert (He : fade_out_start (NFin d) (NFin f) = num_max (NFin 0) (round_double (d - f)))
    by reflexivity.
  rewrite He; split; [reflexivity|].
  pose proof (round_double_not_nan (d - f)) as Hn.
  destruct (round_double (d - f)) as [q|[]|]; [|split; [reflexivity|discriminate]..|contradiction].
  change (num_max (NFin 0) (NFin q)) with (if negb (Qle_bool q 0) then NFin q else NFin 0).
  destruct (Qle_bool q 0) eqn:Hq; cbn [negb]; [split; [reflexivity|discriminate]|].
  split; [|discriminate].
  change (num_lt (NFin q) (NFin 0)) with (negb (Qle_bool 0 q)).
  assert (H : Qle_bool 0 q = true).
  { apply Qle_bool_iff; destruct (Qlt_le_dec 0 q) as [Hl|Hl]; [lra|].
    apply Qle_bool_iff in Hl; congruence. }
  rewrite H; reflexivity.
Qed.

(** Extra: the fade variant computes the fade-out start from the text the
    [ffprobe] of the video printed, whatever its exit code: when that text
    does not parse as a number the [ffmpeg] filter gets [st=NaN]; for a
    duration [d] and a finite fade-out [f] the start is
    [Math.max(0, d - f)] with the difference rounded to a double, never
    negative and never NaN.  The fade-in and fade-out lengths are passed
    through unchanged. *)
Theorem fade_start_clamped (od : string) (vp ap : option string) (fadeIn fadeOut : jsnum)
  (v a : string) (fi st fo : jsnum) (o : string) :
  In (FfmpegFade v a fi st fo o)
     (fst (mergeVideoAndAudioWithFade exists_file probe ffmpeg_ok final_ok fade_probe now od vp ap fadeIn fadeOut)) ->
  vp = Some v /\ fi = fadeIn /\ fo = fadeOut /\
  (parseFloat (JS.trim (snd (fade_probe v))) = NNaN -> st = NNaN) /\
  (forall d f, parseFloat (JS.trim (snd (fade_probe v))) = NFin d -> fadeOut = NFin f ->
     st = num_max (NFin 0) (round_double (d - f)) /\
     num_lt st (NFin 0) = false /\ st <> NNaN).
Proof.
  unfold mergeVideoAndAudioWithFade; intros Hin.
  destruct (merge_with_in _ _ _ _ _ _ Hin) as [(c0 & Hc0)|(v' & a' & Hvp & Hin')]; [discriminate|].
  cbn [run_final fst] in Hin'.
  destruct Hin' as [H|[H|[]]]; [discriminate|].
  injection H as <- <- <- <- <- <-.
  split; [exact Hvp|split; [reflexivity|split; [reflexivity|split]]].
  - intros ->; apply fade_out_start_nan.
  - intros d f -> ->; apply fade_out_start_fin.
Qed.

End MergeVariantsProofs.

Section MergeVariantsWitnesses.
Import Audio MergeVariants.

Lemma fade_start_clamped_witness :
  let fo := parseFloat "0.1" in
  let st := fade_out_start (parseFloat (JS.trim "0.3")) fo in
  In (FfmpegFade "v.mp4" "out/silent_1.m4a" (NFin (1 # 2)) st fo "out/final_fade_1.mp4")
     (fst (mergeVideoAndAudioWithFade (fun _ => true) (fun _ => ProbeExit (Some 0%Z) "0.3")
        (fun _ => true) (fun _ => true) (fun _ => (Some 0%Z, "0.3")) "1" "out"
        (Some "v.mp4") None (NFin (1 # 2)) fo)) /\
  (forall d f, parseFloat (JS.trim "0.3") = NFin d -> fo = NFin f ->
     st = num_max (NFin 0) (round_double (d - f)) /\
     num_lt st (NFin 0) = false /\ st <> NNaN) /\
  st = NFin (7205759403792793 # 36028797018963968) /\
  parseFloat "0.19999999999999998" = st.
Proof.
  intros fo st.
  assert (Hin : In (FfmpegFade "v.mp4" "out/silent_1.m4a" (NFin (1 # 2)) st fo
                  "out/final_fade_1.mp4")
     (fst (mergeVideoAndAudioWithFade (fun _ => true) (fun _ => ProbeExit (Some 0%Z) "0.3")
        (fun _ => true) (fun _ => true) (fun _ => (Some 0%Z, "0.3")) "1" "out"
        (Some "v.mp4") None (NFin (1 # 2)) fo))).
  { cbn. right; right; right; right; right; right; left; reflexivity. }
  split; [exact Hin|].
  split.
  - exact (proj2 (proj2 (proj2 (proj2
      (fade_start_clamped (fun _ => true) (fun _ => ProbeExit (Some 0%Z) "0.3")
        (fun _ => true) (fun _ => true) (fun _ => (Some 0%Z, "0.3")) "1" "out"
        (Some "v.mp4") None (NFin (1 # 2)) fo _ _ _ _ _ _ Hin))))).
  - split; vm_compute; reflexivity.
Defined.

End MergeVariantsWitnesses.

(** ** The prompts of [generateScenePlan] and [generateManimCode] *)

Section PromptProofs.
Import Json Prompts.


Lemma generateManimCode_obj (ns : Q -> string) (v : jsval) :
  (exists fs, v = JObj fs) ->
  generateManimCode ns v =
  Some (if Repair.truthy_opt (get v "manim_error") && Repair.truthy_opt (get v "previous_code")
        then fix_request (str ns (get v "manim_error")) (str ns (get v "previous_code"))
        else create_request ns v).
Proof. intros [fs ->]; reflexivity. Qed.

Lemma get_plan_val_other (p : Repair.ScenePlan) (k : string) :
  k <> "previous_code" -> k <> "manim_error" -> k <> "manim_video_missing" ->
  get (plan_val p) k = get (JObj (("scene_name", JStr (Repair.scene_name p)) :: Repair.other_fields p)) k.
Proof.
  intros H1 H2 H3; unfold plan_val, get; cbn [find].
  destruct (String.eqb k "scene_name"); [reflexivity|].
  apply String.eqb_neq in H1; apply String.eqb_neq in H2; apply String.eqb_neq in H3.
  destruct (Repair.previous_code p), (Repair.manim_error p), (Repair.manim_video_missing p);
  cbn [defined option_map List.app find]; rewrite ?H1, ?H2, ?H3; reflexivity.
Qed.

Lemma create_request_plan_val (ns : Q -> string) (p q : Repair.ScenePlan) :
  Repair.scene_name p = Repair.scene_name q -> Repair.other_fields p = Repair.other_fields q ->
  create_request ns (plan_val p) = create_request ns (plan_val q).
Proof.
  intros Hn Ho; unfold create_request.
  rewrite !(get_plan_val_other p), !(get_plan_val_other q) by discriminate.
  rewrite Hn, Ho; reflexivity.
Qed.

End PromptProofs.

Section PromptExtras.
Import Json Prompts.

(** Extra: [generateScenePlan] reads only [description] and [language] of an
    object input, so on the corrective [{ role, content }] object of
    [feedbackLoop] it sends, whatever the content, the same request: English
    narration, for the description ["undefined"] in the language
    ["undefined"]; the previous answer never reaches the model. *)
Theorem scene_plan_reprompt_request (number_to_string : Q -> string) (c : string) :
  generateScenePlan number_to_string (input_val (fun v => v) (Feedback.Reprompt c)) =
  Some {| req_model := model; req_temperature := 3 # 10;
          req_messages :=
            [("system", scene_plan_system "Write the narration in English." "undefined");
             ("user", "Create a scene plan with narration (in undefined) and captions for: " ++
                      dquote ++ "undefined" ++ dquote ++ ". " ++ nl ++ nl ++
                      "Remember: Write the narration text in undefined language. Return ONLY JSON.")] |}.
Proof. reflexivity. Qed.


(** Extra: [generateManimCode] on the corrective [{ role, content }] object
    of [feedbackLoop] takes the generation branch with every scene field
    [undefined]: whatever the content, it asks for code for the scene [{}],
    without captions. *)
Theorem manim_reprompt_request (number_to_string : Q -> string) (c : string) :
  generateManimCode number_to_string (input_val plan_val (Feedback.Reprompt c)) =
  Some {| req_model := model; req_temperature := 2 # 10;
          req_messages :=
            [("system", manim_system);
             ("user", "Create Manim CE code for this scene:" ++ nl ++ "{}" ++ nl ++ nl ++
                      "Return complete working code as JSON.")] |}.
Proof. reflexivity. Qed.

(** Extra: after a failed render, the next [generateManimCode] request of
    [generateUntilNoManimErrors] is the fix request quoting the first 2000
    characters of [stderr] and the failed code only when both are
    non-empty; otherwise (a render with no video and an empty [stderr]) it
    is the same generation request as for the plan before the failure, so
    the failed code is not sent. *)
Theorem manim_request_after_failure (number_to_string : Q -> string) (plan : Repair.ScenePlan)
  (code : string) (r : Repair.RenderResult) :
  generateManimCode number_to_string (plan_val (Repair.correction plan code r)) =
  Some (if JS.truthy (JS.slice0 (Repair.errors r) 2000) && JS.truthy code
        then fix_request (JS.slice0 (Repair.errors r) 2000) code
        else create_request number_to_string (plan_val plan)).
Proof.
  rewrite (generateManimCode_obj number_to_string (plan_val (Repair.correction plan code r)))
    by (eexists; reflexivity).
  assert (He : get (plan_val (Repair.correction plan code r)) "manim_error" =
               Some (JStr (JS.slice0 (Repair.errors r) 2000))) by reflexivity.
  assert (Hp : get (plan_val (Repair.correction plan code r)) "previous_code" = Some (JStr code))
    by reflexivity.
  rewrite He, Hp; cbn [Repair.truthy_opt Repair.truthy].
  destruct (JS.truthy (JS.slice0 (Repair.errors r) 2000) && JS.truthy code); [reflexivity|].
  f_equal; apply create_request_plan_val; reflexivity.
Qed.

End PromptExtras.

Section PromptWitnesses.
Import Json Prompts.


End PromptWitnesses.

(** ** The [/generateVideo] route *)

Section StringApp.

Lemma substring_0_all (s : string) (m : nat) :
  String.length s <= m -> substring 0 m s = s.
Proof.
  revert m; induction s as [|c s IH]; intros m Hm; [destruct m; reflexivity|].
  destruct m as [|m]; cbn in Hm; [lia|]; cbn; f_equal; apply IH; lia.
Qed.

Lemma substring_skip (p s : string) (m : nat) :
  substring (String.length p) m (p ++ s) = substring 0 m s.
Proof. induction p as [|c p IH]; [reflexivity|exact IH]. Qed.

Lemma length_app_str (a b : string) :
  String.length (a ++ b) = String.length a + String.length b.
Proof. induction a as [|c a IH]; cbn; [reflexivity|rewrite IH; reflexivity]. Qed.

Lemma strip_prefix_app (p s : string) : Json.strip_prefix p (p ++ s) = Some s.
Proof.
  unfold Json.strip_prefix; rewrite prefix_app, substring_skip; f_equal.
  apply substring_0_all; rewrite length_app_str; lia.
Qed.

Lemma list_ascii_app (a b : string) :
  list_ascii_of_string (a ++ b) = List.app (list_ascii_of_string a) (list_ascii_of_string b).
Proof. induction a as [|c a IH]; cbn; [reflexivity|rewrite IH; reflexivity]. Qed.

Lemma string_of_list_app (l1 l2 : list ascii) :
  string_of_list_ascii (List.app l1 l2) = string_of_list_ascii l1 ++ string_of_list_ascii l2.
Proof. induction l1 as [|c l1 IH]; cbn; [reflexivity|rewrite IH; reflexivity]. Qed.

Lemma rev_str_app (a b : string) : JS.rev_str (a ++ b) = JS.rev_str b ++ JS.rev_str a.
Proof.
  unfold JS.rev_str; rewrite list_ascii_app, rev_app_distr, string_of_list_app; reflexivity.
Qed.

Lemma substring_0_app (a b : string) : substring 0 (String.length a) (a ++ b) = a.
Proof. induction a as [|c a IH]; cbn; [destruct b; reflexivity|rewrite IH; reflexivity]. Qed.

Lemma strip_trailing_fence_app (t : string) : Feedback.strip_trailing_fence (t ++ "```") = t.
Proof.
  unfold Feedback.strip_trailing_fence, JS.ends_with, Feedback.fence.
  rewrite rev_str_app, prefix_app, length_app_str.
  replace (String.length t + String.length "```" - 3) with (String.length t) by (cbn; lia).
  apply substring_0_app.
Qed.

Lemma append_assoc_str (a b c : string) : a ++ b ++ c = (a ++ b) ++ c.
Proof. induction a as [|x a IH]; cbn; [reflexivity|rewrite IH; reflexivity]. Qed.

End StringApp.

Section RouteExtras.
Import Json Route.

(** Extra: a critique answer fenced as [```json] + newline + [t] + [```] is
    stored as the value [t] parses to; when [t] is not JSON it is stored as
    [{ summary: null, raw }] with the whole answer, and when [t] is [null]
    the feedback becomes [{ summary: null }]. *)
Theorem route_feedback_json_fence (t : string) :
  let answer := "```json" ++ Feedback.nl ++ t ++ "```" in
  feedback_json (Feedback.Responds (Some answer)) =
  match parse t with
  | Some JNull => JObj [("summary", JNull)]
  | Some v => v
  | None => JObj [("summary", JNull); ("raw", JStr answer)]
  end.
Proof.
  cbv zeta; unfold feedback_json, clean, strip_json_fence, Feedback.content_of.
  rewrite strip_prefix_app, strip_prefix_app, strip_trailing_fence_app.
  destruct (parse t) as [[]|]; reflexivity.
Qed.

(** Extra: unlike [feedbackLoop], the route does not strip a bare [```]
    fence: an answer [```] + newline + [t] + [```] never parses, whatever
    [t], and is stored as [{ summary: null, raw }]. *)
Theorem route_feedback_bare_fence (t : string) :
  let answer := "```" ++ Feedback.nl ++ t ++ "```" in
  feedback_json (Feedback.Responds (Some answer)) =
  JObj [("summary", JNull); ("raw", JStr answer)].
Proof.
  cbv zeta; unfold feedback_json, clean, Feedback.content_of.
  assert (Hs : strip_json_fence ("```" ++ Feedback.nl ++ t ++ "```") =
               ("```" ++ Feedback.nl ++ t) ++ "```").
  { rewrite <- !append_assoc_str; reflexivity. }
  rewrite Hs, strip_trailing_fence_app; reflexivity.
Qed.

End RouteExtras.

Section RouteProofs.
Import Json Route.

Lemma fb_go_all_fail {I} (gen : nat -> Feedback.finput I -> Feedback.gen_result) :
  (forall a i, Feedback.fails (gen a i) = true) ->
  forall fuel attempt input last,
  let r := Feedback.fb_go gen fuel attempt input last in
  length (fst r) = fuel /\ exists raw, snd r = JObj [("raw", JStr raw)].
Proof.
  intros Hf fuel; induction fuel as [|fuel IH]; intros attempt input last; cbv zeta.
  - split; [reflexivity|eexists; reflexivity].
  - cbn [Feedback.fb_go]; pose proof (Hf attempt input) as Ha.
    destruct (gen attempt input) as [|c].
    + specialize (IH (S attempt) (Feedback.Reprompt (Feedback.reprompt_text last)) last).
      destruct (Feedback.fb_go gen fuel _ _ _) as [tr v]; cbn in *.
      destruct IH as [-> Hv]; split; [reflexivity|exact Hv].
    + cbv zeta; unfold Feedback.fails in Ha.
      destruct (parse _); [discriminate|].
      specialize (IH (S attempt) (Feedback.Reprompt (Feedback.reprompt_text
                     (JS.trim (Feedback.content_of c)))) (JS.trim (Feedback.content_of c))).
      destruct (Feedback.fb_go gen fuel _ _ _) as [tr v]; cbn in *.
      destruct IH as [-> Hv]; split; [reflexivity|exact Hv].
Qed.

(** Extra: when the request has a truthy [description] and every answer of
    the scene plan generator fails (rejects or does not parse), the route
    makes exactly three generator calls and answers 500 with
    ["Scene plan generation failed"]: the [{ raw }] fallback of
    [feedbackLoop] has no [scene_name]. *)
Theorem route_plan_generation_exhausted (narration_language : string)
    (planGen : nat -> Feedback.finput jsval -> Feedback.gen_result)
    (reqBody description : jsval) :
  get reqBody "description" = Some description ->
  Repair.truthy description = true ->
  (forall a i, Feedback.fails (planGen a i) = true) ->
  let r := route_plan narration_language planGen reqBody in
  length (fst r) = 3 /\ snd r = inl (fail500 "Scene plan generation failed").
Proof.
  intros Hd Ht Hf; cbv zeta; unfold route_plan; rewrite Hd, Ht.
  unfold Feedback.feedbackLoop.
  match goal with |- context [Feedback.fb_go planGen 3 1 ?i EmptyString] =>
    destruct (fb_go_all_fail planGen Hf 3 1 i EmptyString) as [Hl [raw Hv]];
    destruct (Feedback.fb_go planGen 3 1 i EmptyString) as [tr v] end.
  cbn [fst snd] in *; subst v; split; [exact Hl|reflexivity].
Qed.

End RouteProofs.

Section RouteWitnesses.
Import Json Route.

Lemma route_plan_generation_exhausted_witness :
  let body := JObj [("description", JStr "a bouncing ball")] in
  let gen := fun (_ : nat) (_ : Feedback.finput jsval) => Feedback.Responds (Some "not json") in
  let r := route_plan "nepali" gen body in
  length (fst r) = 3 /\ snd r = inl (fail500 "Scene plan generation failed").
Proof.
  cbv zeta.
  apply (route_plan_generation_exhausted "nepali"
           (fun _ _ => Feedback.Responds (Some "not json"))
           (JObj [("description", JStr "a bouncing ball")]) (JStr "a bouncing ball"));
    [reflexivity|reflexivity|intros; vm_compute; reflexivity].
Defined.

End RouteWitnesses.

Section VoiceProofs.
Import Voice.
Variable ELEVENLABS_KEY : option string.
Variable voiceId scriptsPath now : string.
Variable mkdir : string -> option string.
Variable write : string -> list Byte.byte -> option string.
Variable stat : string -> option string.
Variable post : string -> string -> http_outcome.
Variable status_to_string : nat -> string.
Variable decode_utf8 : list Byte.byte -> string.
Variable number_to_string : Q -> string.
Variable exists_file : string -> bool.
Variable size_of : string -> nat.
Variable probe_json : string -> Audio.probe_outcome.

Local Notation out := (outputPath scriptsPath now).
Local Notation after := (after_post scriptsPath now write stat status_to_string decode_utf8
                           number_to_string exists_file size_of probe_json).
Local Notation gen := (generateNepaliVoice ELEVENLABS_KEY voiceId scriptsPath now mkdir write
                         stat post status_to_string decode_utf8 number_to_string exists_file
                         size_of probe_json).

Lemma blank_text_test (text : string) :
  (negb (JS.truthy text) || (String.length (JS.trim text) =? 0)) = false <->
  JS.trim text <> EmptyString.
Proof.
  destruct text as [|c r].
  - cbn; split; [discriminate|intros H; exfalso; apply H; reflexivity].
  - cbn [JS.truthy negb orb]; destruct (JS.trim (String c r)); cbn;
      split; intros H; try discriminate; try reflexivity; exfalso; apply H; reflexivity.
Qed.

Lemma out_truthy : JS.truthy out = true.
Proof. unfold outputPath, Audio.join; destruct scriptsPath; reflexivity. Qed.

Lemma after_post_ok (r : Audio.result (nat * list Byte.byte)) ev p :
  after r = (ev, Audio.Ok p) ->
  exists data, r = Audio.Ok (200, data) /\ data <> [] /\ write out data = None /\
    stat out = None /\ exists_file out = true /\ p = out /\
    exists vev, ev = EWrite out data :: EStat out :: map EVerify vev.
Proof.
  unfold after_post; destruct r as [[st data]|msg]; [|discriminate].
  destruct (st =? 200) eqn:H2; cbn [negb]; [|discriminate].
  apply Nat.eqb_eq in H2; subst st.
  destruct (length data =? 0) eqn:Hl; [discriminate|].
  destruct (write out data) eqn:Hw; [discriminate|].
  destruct (stat out) eqn:Hs; [discriminate|].
  unfold Verify.verifyAudioFile; rewrite out_truthy; cbn [andb].
  destruct (exists_file out) eqn:He; [|discriminate].
  intros H; injection H as <- <-.
  exists data; repeat split; try reflexivity; try assumption.
  - destruct data; discriminate.
  - exists [Verify.VStat out; Verify.VProbe out]; reflexivity.
Qed.

Lemma axios_post_200 u t data :
  axios_post post status_to_string u t = Audio.Ok (200, data) <->
  post u t = HttpResponse 200 data.
Proof.
  unfold axios_post; destruct (post u t) as [msg|st d].
  - split; discriminate.
  - destruct (st <? 500) eqn:H5.
    + split; intros H; injection H as -> ->; reflexivity.
    + split; [discriminate|intros H; injection H as -> _; discriminate].
Qed.

(** Extra: [generateNepaliVoice] resolves, always with the path
    [scripts/voice_<now>.mp3], exactly when the API key is set, the trimmed
    text is not empty, the directory is created, the API answers status 200
    to the trimmed text with a non-empty body, the file is written and
    stat'ed and exists for [verifyAudioFile]; what the probe reports (even
    no audio stream) does not matter. *)
Theorem voice_resolves_iff (text p : string) :
  snd (gen text) = Audio.Ok p <->
  key_set ELEVENLABS_KEY = true /\ JS.trim text <> EmptyString /\
  mkdir scriptsPath = None /\
  exists data, post (url voiceId) (JS.trim text) = HttpResponse 200 data /\
    data <> [] /\ write out data = None /\ stat out = None /\
    exists_file out = true /\ p = out.
Proof.
  split.
  - unfold generateNepaliVoice.
    destruct (key_set ELEVENLABS_KEY) eqn:Hk; cbn [negb]; [|discriminate].
    destruct (negb (JS.truthy text) || _) eqn:Hb; [discriminate|].
    apply blank_text_test in Hb.
    destruct (mkdir scriptsPath) eqn:Hm; [discriminate|].
    destruct (after (axios_post post status_to_string (url voiceId) (JS.trim text)))
      as [ev r] eqn:Ha.
    cbn [snd]; intros ->.
    destruct (after_post_ok _ _ _ Ha) as (data & Hr & Hd & Hw & Hs & He & Hp & _).
    apply axios_post_200 in Hr.
    repeat split; try assumption; exists data; repeat split; assumption.
  - intros (Hk & Hb & Hm & data & Hp & Hd & Hw & Hs & He & ->).
    unfold generateNepaliVoice; rewrite Hk; cbn [negb].
    apply blank_text_test in Hb; rewrite Hb, Hm.
    apply axios_post_200 in Hp; rewrite Hp.
    unfold after_post; cbn [Nat.eqb negb].
    destruct data as [|b data]; [contradiction|cbn [length Nat.eqb]].
    rewrite Hw, Hs; unfold Verify.verifyAudioFile; rewrite out_truthy, He.
    reflexivity.
Qed.

(** Extra: [generateNepaliVoice] posts only when the API key is set, only
    to the voice's URL, and only the trimmed text, never a blank one; and
    the only file it writes is [outputPath], with the non-empty body of a
    status 200 answer to that post. *)
Theorem voice_effects (text : string) :
  (forall u t, In (EPost u t) (fst (gen text)) ->
     key_set ELEVENLABS_KEY = true /\ u = url voiceId /\ t = JS.trim text /\
     t <> EmptyString) /\
  (forall f d, In (EWrite f d) (fst (gen text)) ->
     f = out /\ d <> [] /\ post (url voiceId) (JS.trim text) = HttpResponse 200 d).
Proof.
  unfold generateNepaliVoice.
  destruct (key_set ELEVENLABS_KEY) eqn:Hk; cbn [negb]; [|split; cbn; tauto].
  destruct (negb (JS.truthy text) || _) eqn:Hb; [split; cbn; tauto|].
  apply blank_text_test in Hb.
  destruct (mkdir scriptsPath) eqn:Hm;
    [split; intros ? ? [H|[]]; discriminate|].
  destruct (after (axios_post post status_to_string (url voiceId) (JS.trim text)))
    as [ev r] eqn:Ha.
  cbn [fst].
  assert (Hev : forall f d, In (EWrite f d) ev ->
            f = out /\ d <> [] /\ post (url voiceId) (JS.trim text) = HttpResponse 200 d).
  { intros f d Hin.
    revert Ha; unfold after_post.
    destruct (axios_post post status_to_string (url voiceId) (JS.trim text))
      as [[st data]|msg] eqn:Hax;
      [|intros H; injection H as <- _; destruct Hin].
    destruct (st =? 200) eqn:H2; cbn [negb];
      [|intros H; injection H as <- _; destruct Hin].
    apply Nat.eqb_eq in H2; subst st.
    apply axios_post_200 in Hax.
    destruct (length data =? 0) eqn:Hl; [intros H; injection H as <- _; destruct Hin|].
    assert (Hd : data <> []) by (destruct data; discriminate).
    assert (Hw : forall vev, In (EWrite f d) (EWrite out data :: EStat out :: map EVerify vev) ->
                 f = out /\ d <> [] /\
                 post (url voiceId) (JS.trim text) = HttpResponse 200 d).
    { intros vev [H|[H|H]]; [injection H as -> ->; repeat split; auto|discriminate|].
      apply in_map_iff in H; destruct H as (x & Hx & _); discriminate. }
    destruct (write out data);
      [intros H; injection H as <- _; destruct Hin as [H|[]]; injection H as -> ->; repeat split; auto|].
    destruct (stat out);
      [intros H; injection H as <- _; apply (Hw []); cbn; tauto|].
    destruct (Verify.verifyAudioFile _ _ _ _ _) as [vev vr].
    intros H; injection H as <- _; exact (Hw vev Hin). }
  split.
  - intros u t [H|[H|H]]; [discriminate| |].
    + injection H as <- <-; repeat split; auto.
    + exfalso; clear Hev; revert Ha H; unfold after_post.
      destruct (axios_post _ _ _ _) as [[st data]|msg];
        [|intros Ha; injection Ha as <- _; intros []].
      destruct (negb (st =? 200)); [intros Ha; injection Ha as <- _; intros []|].
      destruct (length data =? 0); [intros Ha; injection Ha as <- _; intros []|].
      destruct (write out data); [intros Ha; injection Ha as <- _; intros [H|[]]; discriminate|].
      destruct (stat out); [intros Ha; injection Ha as <- _; intros [H|[H|[]]]; discriminate|].
      destruct (Verify.verifyAudioFile _ _ _ _ _) as [vev vr].
      intros Ha; injection Ha as <- _; intros [H|[H|H]]; try discriminate.
      apply in_map_iff in H; destruct H as (x & Hx & _); discriminate.
  - intros f d [H|[H|H]]; [discriminate|discriminate|exact (Hev f d H)].
Qed.

End VoiceProofs.
